(** * Metadata resolution for the app renderer

    A verification development for [packages/next/src/lib/metadata/metadata.tsx]:
    the metadata context with its tracked [pathname], the resolution
    orchestrator [getResolvedMetadata], and the pair of render units built by
    [createMetadataComponents] ([MetadataTree] and [getMetadataReady]) that
    share one promise through a closure variable.

    The asynchronous code is embedded as programs of a small command monad
    ([Cmd]) and run on a model of the JavaScript job queue: a heap of
    promises with their reactions, and a queue of microtasks. *)

From stdpp Require Import base option list strings gmap.

Set Default Proof Using "Type".
Set Warnings "-register-all".

(* ===================================================================== *)
(** * React nodes *)
(* ===================================================================== *)

(** The [key] of an element: [MetadataTree] passes the array index, element
    builders may have passed a string. *)
Inductive Key : Type :=
| KeyIndex (index : nat)
| KeyString (s : string).

Record ReactElement : Type := mkElement {
  el_type : string;
  el_key : option Key;
  el_props : list (string * string);
}.

(** What a component returns and what JSX children are: [null], one
    element, an array of nodes, or a fragment [<>...</>] with children. *)
Inductive ReactNode : Type :=
| NodeNull
| NodeElement (el : ReactElement)
| NodeArray (items : list ReactNode)
| NodeFragment (children : list ReactNode).

(** [React.cloneElement(el, { key: index })]: same type and props, the key
    replaced. *)
Definition cloneElement_with_key (el : ReactElement) (index : nat) : ReactElement :=
  {| el_type := el_type el; el_key := Some (KeyIndex index); el_props := el_props el |}.

(** [<meta name="next-size-adjust" />] *)
Definition size_adjust_meta : ReactElement :=
  {| el_type := "meta"; el_key := None; el_props := [("name", "next-size-adjust")] |}.

(** The elements a node renders, in document order ([null] renders
    nothing; arrays and fragments render their children). *)
Fixpoint rendered_elements (n : ReactNode) : list ReactElement :=
  match n with
  | NodeNull => []
  | NodeElement el => [el]
  | NodeArray items =>
      (fix go (l : list ReactNode) : list ReactElement :=
         match l with
         | [] => []
         | x :: l' => rendered_elements x ++ go l'
         end) items
  | NodeFragment children =>
      (fix go (l : list ReactNode) : list ReactElement :=
         match l with
         | [] => []
         | x :: l' => rendered_elements x ++ go l'
         end) children
  end.

(* ===================================================================== *)
(** * Types and collaborators declared outside this file *)
(* ===================================================================== *)

(** The types this module only passes along. Their declarations live in
    other modules ([app-render], [app-dir-module], [querystring],
    [types/metadata-interface], [fallback-params]). *)
Class Domain : Type := {
  LoaderTree : Type;
  ParsedUrlQuery : Type;
  GetDynamicParamFromSegment : Type;
  CreateDynamicallyTrackedParams : Type;
  MetadataItems : Type;
  (** a field of [ResolvedMetadata] ([metadata.alternates], ...) *)
  MetadataField : Type;
  ResolvedViewport : Type;
  (** the values collaborators throw or report as errors; they are objects,
      hence truthy *)
  Err : Type;
  (** the state of the dynamic-rendering tracker *)
  Tracking : Type;
}.

Inductive ErrorType : Type := NotFound | Redirect.

Inductive Null : Type := null.

Section DataModel.
Context `{D : Domain}.

(** [ResolvedMetadata]: the fields [createMetadataElements] projects, and
    the remaining ones (title, description, ...) that only [BasicMeta]
    reads. *)
Record ResolvedMetadata : Type := {
  alternates : MetadataField;
  itunes : MetadataField;
  facebook : MetadataField;
  formatDetection : MetadataField;
  verification : MetadataField;
  appleWebApp : MetadataField;
  openGraph : MetadataField;
  twitter : MetadataField;
  appLinks : MetadataField;
  icons : MetadataField;
  basic : MetadataField;
}.

(** Errors as JavaScript sees them: a value a collaborator threw, or an
    [Error] / [TypeError] object constructed by the runtime or this file. *)
Inductive JsError : Type :=
| Thrown (e : Err)
| NewError (message : string)
| NewTypeError (message : string).

End DataModel.

(* ===================================================================== *)
(** * The metadata context and its tracked pathname *)
(* ===================================================================== *)

(** [AppRenderContext['renderOpts']], the two options read here. *)
Record RenderOpts : Type := {
  ro_trailingSlash : bool;
  ro_nextConfigOutput : option string;
}.

(** [StaticGenerationStore], the fields the pathname trap reads.
    [fallbackRouteParams] is [null] or a [Map]. *)
Record StaticGenerationStore : Type := {
  isStaticGeneration : bool;
  fallbackRouteParams : option (gmap string string);
}.

Section Context_.
Context `{D : Domain}.

(** [trackFallbackParamAccessed] of [server/app-render/dynamic-rendering]:
    given the store and the expression accessed, it updates the tracker and
    returns normally ([None]) or throws. *)
Context (trackFallbackParamAccessed :
           StaticGenerationStore → string → Tracking → option JsError * Tracking).

(** A property read: the value or the error thrown, and the tracker
    afterwards. *)
Definition Read (A : Type) : Type := Tracking → (A + JsError) * Tracking.

(** [MetadataContext]. [pathname] is a plain data property in
    [createMetadataContext] and an accessor in
    [createTrackedMetadataContext], so it is modelled as a read. *)
Record MetadataContext : Type := {
  pathname : Read string;
  trailingSlash : bool;
  isStandaloneMode : bool;
}.

Definition createMetadataContext (pathname : string) (renderOpts : RenderOpts)
    : MetadataContext :=
  {| pathname := λ t, (inl pathname, t);
     trailingSlash := ro_trailingSlash renderOpts;
     isStandaloneMode :=
       bool_decide (ro_nextConfigOutput renderOpts = Some "standalone") |}.

Definition createTrackedMetadataContext
    (pathname : string) (renderOpts : RenderOpts)
    (staticGenerationStore : option StaticGenerationStore) : MetadataContext :=
  (* ...createMetadataContext(pathname, renderOpts) *)
  let base := createMetadataContext pathname renderOpts in
  {| trailingSlash := trailingSlash base;
     isStandaloneMode := isStandaloneMode base;
     (* get pathname() *)
     pathname := λ t,
       match staticGenerationStore with
       | Some store =>
           if isStaticGeneration store &&
              match fallbackRouteParams store with
              | Some params => bool_decide (0 < size params)
              | None => false
              end
           then
             match trackFallbackParamAccessed store "pathname" t with
             | (Some e, t') => (inr e, t')
             | (None, t') => (inl pathname, t')
             end
           else (inl pathname, t)
       | None => (inl pathname, t)
       end |}.

End Context_.

(* ===================================================================== *)
(** * Promises and the job queue *)
(* ===================================================================== *)

(** A promise is named by its position in the heap. *)
Definition pid : Type := nat.

Section Runtime.
Context `{D : Domain}.

(** What [resolveMetadata] is called with. [parentParams] is always the
    empty object and [metadataItems] the empty array; [errorMetadataItem]
    is the triple [[null, null, null]]. *)
Record ResolveParams : Type := {
  rp_tree : LoaderTree;
  rp_parentParams : list (string * string);
  rp_metadataItems : list MetadataItems;
  rp_errorMetadataItem : Null * Null * Null;
  rp_searchParams : ParsedUrlQuery;
  rp_getDynamicParamFromSegment : GetDynamicParamFromSegment;
  rp_errorConvention : option ErrorType;
  rp_metadataContext : MetadataContext;
  rp_createDynamicallyTrackedParams : CreateDynamicallyTrackedParams;
}.

(** [[error, metadata, viewport]], what a resolver pass reports. *)
Definition Resolved : Type := option Err * ResolvedMetadata * ResolvedViewport.

(** [[error, elements]], what [getResolvedMetadata] reports. *)
Definition Outcome : Type := option Err * list ReactElement.

(** How the promise of one [resolveMetadata] call settles. *)
Inductive ResolverAnswer : Type :=
| Resolves (r : Resolved)
| Rejects (e : Err).

(** The values that flow through the promises of this module. *)
Inductive Val : Type :=
| VUndefined
| VResolved (r : Resolved)
| VOutcome (o : Outcome)
| VNode (n : ReactNode)
| VError (e : JsError)
| VPromise (p : pid).

Inductive PState : Type :=
| Pending
| Fulfilled (v : Val)
| Rejected (e : JsError).

(** ** Commands

    Code is a tree of commands; each command that yields a value takes the
    rest of the code as a continuation. [Await] is where an async function
    suspends: the rest of its body becomes a reaction of the awaited
    promise. [CallAsync] calls an async function, whose body runs at once up
    to its first [Await]. [PromiseThen p f g] is [p.then(f, g)], and
    [p.catch(g)] when [f] is absent; its handlers receive, besides the
    settled value, the promise that this very [then] call returns: in the
    source they reach it through the [const] the result is bound to.
    [PromiseResolve] is [Promise.resolve()]. *)
Inductive Cmd : Type :=
| Return (v : Val)
| Throw (e : JsError)
| CallResolveMetadata (params : ResolveParams) (k : pid → Cmd)
| Await (p : pid) (k : Val → Cmd)
| PromiseThen (p : pid)
    (onFulfilled : option (pid → Val → Cmd))
    (onRejected : option (pid → JsError → Cmd))
    (k : pid → Cmd)
| PromiseResolve (k : pid → Cmd)
| SetStatus (p : pid) (status : string) (k : Cmd)
| SetValue (p : pid) (v : Val) (k : Cmd)
| ReadCurrentMetadataReady (k : option pid → Cmd)
| WriteCurrentMetadataReady (p : pid) (k : Cmd)
| CallAsync (body : Cmd) (k : pid → Cmd).

Record Reaction : Type := {
  on_fulfilled : Val → Cmd;
  on_rejected : JsError → Cmd;
  r_target : pid;
}.

(** A promise object: its internal state and reactions, and the two
    expando properties [status] and [value] that [MetadataTree] writes
    ([None]: the property was never assigned). *)
Record Promise : Type := {
  p_state : PState;
  p_reactions : list Reaction;
  p_status : option string;
  p_value : option Val;
}.

(** A microtask: code to run, and the promise its completion settles. *)
Record Job : Type := {
  job_cmd : Cmd;
  job_target : pid;
}.

(** What an observer of the run sees, in order. *)
Inductive Event : Type :=
| ResolverCalled (params : ResolveParams)
| StatusAssigned (p : pid) (status : string)
| MicrotaskStarted.

(** The state of one request: the heap of promises, the microtask queue,
    the closure variable [currentMetadataReady] of
    [createMetadataComponents], and the events so far (oldest first). *)
Record State : Type := {
  heap : list Promise;
  queue : list Job;
  currentMetadataReady : option pid;
  events : list Event;
}.

Definition initial_state : State :=
  {| heap := []; queue := []; currentMetadataReady := None; events := [] |}.

Definition with_heap (h : list Promise) (s : State) : State :=
  {| heap := h; queue := queue s;
     currentMetadataReady := currentMetadataReady s; events := events s |}.

Definition with_queue (q : list Job) (s : State) : State :=
  {| heap := heap s; queue := q;
     currentMetadataReady := currentMetadataReady s; events := events s |}.

Definition with_current (c : option pid) (s : State) : State :=
  {| heap := heap s; queue := queue s;
     currentMetadataReady := c; events := events s |}.

Definition record_event (e : Event) (s : State) : State :=
  {| heap := heap s; queue := queue s;
     currentMetadataReady := currentMetadataReady s;
     events := events s ++ [e] |}.

Definition new_promise (st : PState) : Promise :=
  {| p_state := st; p_reactions := []; p_status := None; p_value := None |}.

Definition alloc (st : PState) (s : State) : pid * State :=
  (length (heap s), with_heap (heap s ++ [new_promise st]) s).

Definition update_promise (p : pid) (f : Promise → Promise) (s : State) : State :=
  match heap s !! p with
  | Some pr => with_heap (<[p := f pr]> (heap s)) s
  | None => s
  end.

Definition enqueue (jobs : list Job) (s : State) : State :=
  with_queue (queue s ++ jobs) s.

(** The microtask a reaction becomes when its promise has settled as [st]
    (reactions are only ever scheduled for a settled state). *)
Definition reaction_job (st : PState) (r : Reaction) : Job :=
  {| job_cmd :=
       match st with
       | Fulfilled v => on_fulfilled r v
       | Rejected e => on_rejected r e
       | Pending => Return VUndefined
       end;
     job_target := r_target r |}.

(** Settle a pending promise: its reactions become microtasks, in the
    order they were registered. A settled promise stays as it is. *)
Definition settle (p : pid) (st : PState) (s : State) : State :=
  match heap s !! p with
  | Some pr =>
      match p_state pr with
      | Pending =>
          enqueue (reaction_job st <$> p_reactions pr)
            (with_heap
               (<[p := {| p_state := st; p_reactions := [];
                          p_status := p_status pr; p_value := p_value pr |}]>
                  (heap s)) s)
      | _ => s
      end
  | None => s
  end.

(** Register a reaction: kept on a pending promise, scheduled at once on
    a settled one. *)
Definition subscribe (p : pid) (r : Reaction) (s : State) : State :=
  match heap s !! p with
  | Some pr =>
      match p_state pr with
      | Pending =>
          with_heap
            (<[p := {| p_state := Pending;
                       p_reactions := p_reactions pr ++ [r];
                       p_status := p_status pr; p_value := p_value pr |}]>
               (heap s)) s
      | st => enqueue [reaction_job st r] s
      end
  | None => s
  end.

(** How a piece of code ends: it returned, it threw, or it is an async
    function suspended at an [await]. *)
Inductive Completion : Type :=
| Returned (v : Val)
| Threw (e : JsError)
| Awaiting (p : pid) (k : Val → Cmd).

(** Resolve [target] with [v]. Resolving with a promise schedules the job
    that subscribes [target] to it; [target] then follows that promise. *)
Definition resolve_promise (target : pid) (v : Val) (s : State) : State :=
  match v with
  | VPromise q =>
      enqueue [ {| job_cmd := Await q Return; job_target := target |} ] s
  | _ => settle target (Fulfilled v) s
  end.

(** The completion of an async function body or of a reaction handler
    settles the promise it belongs to; an [await] on a rejected promise
    throws at the [await], and nothing in this file catches it. *)
Definition complete (target : pid) (c : Completion) (s : State) : State :=
  match c with
  | Returned v => resolve_promise target v s
  | Threw e => settle target (Rejected e) s
  | Awaiting p k =>
      subscribe p {| on_fulfilled := k; on_rejected := Throw; r_target := target |} s
  end.

Definition resolver_calls (s : State) : list ResolveParams :=
  omap (λ e, match e with ResolverCalled params => Some params | _ => None end)
       (events s).

Definition answer_state (a : ResolverAnswer) : PState :=
  match a with
  | Resolves r => Fulfilled (VResolved r)
  | Rejects e => Rejected (Thrown e)
  end.

(** ** Running code *)

(** The tree-walking resolver is an external collaborator. Its answer may
    depend on what it is called with and on how many passes were made
    before. The promise it returns is taken to have settled by the time the
    caller's job ends; the code that awaits it resumes in a later microtask
    either way. *)
Context (resolveMetadata : nat → ResolveParams → ResolverAnswer).

(** Run code up to its completion or its first [await]. *)
Fixpoint exec (c : Cmd) (s : State) : Completion * State :=
  match c with
  | Return v => (Returned v, s)
  | Throw e => (Threw e, s)
  | CallResolveMetadata params k =>
      let answer := resolveMetadata (length (resolver_calls s)) params in
      let '(p, s1) := alloc (answer_state answer) (record_event (ResolverCalled params) s) in
      exec (k p) s1
  | Await p k => (Awaiting p k, s)
  | PromiseThen p onFulfilled onRejected k =>
      let '(derived, s1) := alloc Pending s in
      let r := {| on_fulfilled := match onFulfilled with
                                  | Some f => f derived
                                  | None => Return
                                  end;
                  on_rejected := match onRejected with
                                 | Some g => g derived
                                 | None => Throw
                                 end;
                  r_target := derived |} in
      exec (k derived) (subscribe p r s1)
  | PromiseResolve k =>
      let '(p, s1) := alloc (Fulfilled VUndefined) s in
      exec (k p) s1
  | SetStatus p status k =>
      exec k
        (record_event (StatusAssigned p status)
           (update_promise p
              (λ pr, {| p_state := p_state pr; p_reactions := p_reactions pr;
                        p_status := Some status; p_value := p_value pr |}) s))
  | SetValue p v k =>
      exec k
        (update_promise p
           (λ pr, {| p_state := p_state pr; p_reactions := p_reactions pr;
                     p_status := p_status pr; p_value := Some v |}) s)
  | ReadCurrentMetadataReady k => exec (k (currentMetadataReady s)) s
  | WriteCurrentMetadataReady p k => exec k (with_current (Some p) s)
  | CallAsync body k =>
      let '(result, s1) := alloc Pending s in
      let '(c, s2) := exec body s1 in
      exec (k result) (complete result c s2)
  end.

(** One microtask. *)
Definition run_job (j : Job) (s : State) : State :=
  let '(c, s') := exec (job_cmd j) (record_event MicrotaskStarted s) in
  complete (job_target j) c s'.

(** The microtask checkpoint: run queued jobs, oldest first, until the
    queue is empty (or the fuel is used up). *)
Fixpoint drain (fuel : nat) (s : State) : State :=
  match fuel with
  | 0 => s
  | S fuel' =>
      match queue s with
      | [] => s
      | j :: q => drain fuel' (run_job j (with_queue q s))
      end
  end.

End Runtime.

Arguments Cmd {D}.
Arguments State {D}.

Notation "'let!' x ':=' c 'in' k" := (c (λ x, k))
  (at level 10, x binder, c at level 100, k at level 200, only parsing).
Notation "'do!' c 'in' k" := (c k)
  (at level 10, c at level 100, k at level 200, only parsing).

(* ===================================================================== *)
(** * The module *)
(* ===================================================================== *)

(** The functions this module imports: the error classifier of
    [client/components/not-found], the element builders of [generate/*] and
    the [MetaFilter] combinator of [generate/meta]. *)
Class Collaborators `{D : Domain} : Type := {
  isNotFoundError : Err → bool;
  MetaFilter : list ReactNode → list ReactElement;
  ViewportMeta : ResolvedViewport → ReactNode;
  BasicMeta : ResolvedMetadata → ReactNode;
  AlternatesMetadata : MetadataField → ReactNode;
  ItunesMeta : MetadataField → ReactNode;
  FacebookMeta : MetadataField → ReactNode;
  FormatDetectionMeta : MetadataField → ReactNode;
  VerificationMeta : MetadataField → ReactNode;
  AppleWebAppMeta : MetadataField → ReactNode;
  OpenGraphMetadata : MetadataField → ReactNode;
  TwitterMetadata : MetadataField → ReactNode;
  AppLinksMeta : MetadataField → ReactNode;
  IconsMetadata : MetadataField → ReactNode;
}.

Section Metadata.
Context `{C : Collaborators}.

Definition createMetadataElements (metadata : ResolvedMetadata)
    (viewport : ResolvedViewport) : list ReactElement :=
  MetaFilter [
    ViewportMeta viewport;
    BasicMeta metadata;
    AlternatesMetadata (alternates metadata);
    ItunesMeta (itunes metadata);
    FacebookMeta (facebook metadata);
    FormatDetectionMeta (formatDetection metadata);
    VerificationMeta (verification metadata);
    AppleWebAppMeta (appleWebApp metadata);
    OpenGraphMetadata (openGraph metadata);
    TwitterMetadata (twitter metadata);
    AppLinksMeta (appLinks metadata);
    IconsMetadata (icons metadata)
  ].

(** Destructuring something that is not the expected array. The
    collaborators' declared types rule it out; JavaScript would throw. *)
Definition not_iterable : JsError := NewTypeError "value is not iterable".

(** [async function getResolvedMetadata(...)]: the body of the async
    function. *)
Definition getResolvedMetadata
    (tree : LoaderTree)
    (query : ParsedUrlQuery)
    (getDynamicParamFromSegment : GetDynamicParamFromSegment)
    (metadataContext : MetadataContext)
    (createDynamicallyTrackedSearchParams : ParsedUrlQuery → ParsedUrlQuery)
    (createDynamicallyTrackedParams : CreateDynamicallyTrackedParams)
    (errorType : option ErrorType) : Cmd :=
  let errorMetadataItem := (null, null, null) in
  let errorConvention :=
    match errorType with
    | Some Redirect => None
    | _ => errorType
    end in
  let searchParams := createDynamicallyTrackedSearchParams query in
  let! pass := CallResolveMetadata
    {| rp_tree := tree;
       rp_parentParams := [];
       rp_metadataItems := [];
       rp_errorMetadataItem := errorMetadataItem;
       rp_searchParams := searchParams;
       rp_getDynamicParamFromSegment := getDynamicParamFromSegment;
       rp_errorConvention := errorConvention;
       rp_metadataContext := metadataContext;
       rp_createDynamicallyTrackedParams := createDynamicallyTrackedParams |} in
  let! resolved := Await pass in
  match resolved with
  | VResolved (error, metadata, viewport) =>
      match error with
      | None => Return (VOutcome (None, createMetadataElements metadata viewport))
      | Some err =>
          if negb (bool_decide (is_Some errorType)) && isNotFoundError err then
            let! notFoundPass := CallResolveMetadata
              {| rp_tree := tree;
                 rp_parentParams := [];
                 rp_metadataItems := [];
                 rp_errorMetadataItem := errorMetadataItem;
                 rp_searchParams := searchParams;
                 rp_getDynamicParamFromSegment := getDynamicParamFromSegment;
                 rp_errorConvention := Some NotFound;
                 rp_metadataContext := metadataContext;
                 rp_createDynamicallyTrackedParams :=
                   createDynamicallyTrackedParams |} in
            let! notFoundResolved := Await notFoundPass in
            match notFoundResolved with
            | VResolved (notFoundMetadataError, notFoundMetadata, notFoundViewport) =>
                Return (VOutcome
                  (match notFoundMetadataError with
                   | Some e => Some e
                   | None => error
                   end,
                   createMetadataElements notFoundMetadata notFoundViewport))
            | _ => Throw not_iterable
            end
          else Return (VOutcome (error, []))
      end
  | _ => Throw not_iterable
  end.

(** The argument object of [createMetadataComponents]. *)
Record ComponentsProps : Type := {
  tree : LoaderTree;
  query : ParsedUrlQuery;
  metadataContext : MetadataContext;
  getDynamicParamFromSegment : GetDynamicParamFromSegment;
  appUsingSizeAdjustment : bool;
  errorType : option ErrorType;
  createDynamicallyTrackedSearchParams : ParsedUrlQuery → ParsedUrlQuery;
  createDynamicallyTrackedParams : CreateDynamicallyTrackedParams;
}.

(** What [MetadataTree] returns for the elements of an outcome:
    [<>{elements.map((el, index) => cloneElement(el, { key: index }))}
       {appUsingSizeAdjustment ? <meta name="next-size-adjust" /> : null}</>]. *)
Definition MetadataTree_output (appUsingSizeAdjustment : bool)
    (elements : list ReactElement) : ReactNode :=
  NodeFragment [
    NodeArray (imap (λ index el, NodeElement (cloneElement_with_key el index)) elements);
    if appUsingSizeAdjustment then NodeElement size_adjust_meta else NodeNull
  ].

(** The first handler of [pendingMetadata.then]: [([error]) => {...}]. *)
Definition metadataReady_onFulfilled (metadataReady : pid) (outcome : Val) : Cmd :=
  match outcome with
  | VOutcome (error, _) =>
      match error with
      | Some err =>
          do! SetStatus metadataReady "rejected" in
          do! SetValue metadataReady (VError (Thrown err)) in
          Throw (Thrown err)
      | None =>
          do! SetStatus metadataReady "fulfilled" in
          do! SetValue metadataReady VUndefined in
          Return VUndefined
      end
  | _ => Throw not_iterable
  end.

(** The second handler: [(error) => {...}]. *)
Definition metadataReady_onRejected (metadataReady : pid) (error : JsError) : Cmd :=
  do! SetStatus metadataReady "rejected" in
  do! SetValue metadataReady (VError error) in
  Throw error.

(** [async function MetadataTree()]: the body of the async function. *)
Definition MetadataTree (props : ComponentsProps) : Cmd :=
  let! pendingMetadata := CallAsync
    (getResolvedMetadata (tree props) (query props)
       (getDynamicParamFromSegment props) (metadataContext props)
       (createDynamicallyTrackedSearchParams props)
       (createDynamicallyTrackedParams props) (errorType props)) in
  let! metadataReady := PromiseThen pendingMetadata
    (Some metadataReady_onFulfilled) (Some metadataReady_onRejected) in
  do! SetStatus metadataReady "pending" in
  do! WriteCurrentMetadataReady metadataReady in
  (* metadataReady.catch(() => {}) *)
  let! _ := PromiseThen metadataReady None (Some (λ _ _, Return VUndefined)) in
  let! outcome := Await pendingMetadata in
  match outcome with
  | VOutcome (_, elements) =>
      Return (VNode (MetadataTree_output (appUsingSizeAdjustment props) elements))
  | _ => Throw not_iterable
  end.

Definition ordering_violation : JsError :=
  NewError "getMetadataReady was called before MetadataTree rendered".

(** [function getMetadataReady()]: an ordinary function that returns the
    promise of [Promise.resolve().then(...)]. *)
Definition getMetadataReady : Cmd :=
  let! resolved := PromiseResolve in
  let! result := PromiseThen resolved
    (Some (λ _ _,
       let! current := ReadCurrentMetadataReady in
       match current with
       | Some metadataReady => Return (VPromise metadataReady)
       | None => Throw ordering_violation
       end))
    None in
  Return (VPromise result).

(** [createMetadataComponents]: the pair [[MetadataTree, getMetadataReady]].
    The two functions close over [let currentMetadataReady = null], the cell
    of the request's [State]. *)
Definition createMetadataComponents (props : ComponentsProps) : Cmd * Cmd :=
  (MetadataTree props, getMetadataReady).

(** ** The host

    The renderer calls the two functions of the pair and lets the
    microtask queue run between its own jobs. *)
Inductive HostAction : Type :=
| RenderMetadataTree
| CallGetMetadataReady
| MicrotaskCheckpoint (fuel : nat).

Context (resolveMetadata : nat → ResolveParams → ResolverAnswer).

Definition host_call (c : Cmd) (s : State) : Completion * State :=
  exec resolveMetadata c s.

(** [MetadataTree()]: calling the async function of the pair. *)
Definition render_MetadataTree (props : ComponentsProps) (s : State)
    : Completion * State :=
  host_call (let! result := CallAsync (createMetadataComponents props).1 in
             Return (VPromise result)) s.

(** [getMetadataReady()]: calling the accessor of the pair. *)
Definition call_getMetadataReady (props : ComponentsProps) (s : State)
    : Completion * State :=
  host_call (createMetadataComponents props).2 s.

(** Run a script of host actions; the results of the calls are collected
    in order. *)
Fixpoint run_host (props : ComponentsProps) (script : list HostAction)
    (s : State) : list Completion * State :=
  match script with
  | [] => ([], s)
  | RenderMetadataTree :: rest =>
      let '(c, s1) := render_MetadataTree props s in
      let '(cs, s2) := run_host props rest s1 in
      (c :: cs, s2)
  | CallGetMetadataReady :: rest =>
      let '(c, s1) := call_getMetadataReady props s in
      let '(cs, s2) := run_host props rest s1 in
      (c :: cs, s2)
  | MicrotaskCheckpoint fuel :: rest =>
      run_host props rest (drain resolveMetadata fuel s)
  end.

(** One render of the head: [MetadataTree()] is called in a fresh request
    and the microtask queue runs. *)
Definition render_pass (fuel : nat) (props : ComponentsProps)
    : list Completion * State :=
  run_host props [RenderMetadataTree; MicrotaskCheckpoint fuel] initial_state.

(** The state of a promise, [None] for a name that was never allocated. *)
Definition promise_state (s : State) (p : pid) : option PState :=
  p_state <$> heap s !! p.

(** [getResolvedMetadata] called on its own with the arguments
    [MetadataTree] passes, in a fresh request, and run until the microtask
    queue is empty: the state its promise ends in, and the resolver passes
    it made. *)
Definition resolution (fuel : nat) (props : ComponentsProps)
    : option PState * list ResolveParams :=
  let s :=
    (host_call
       (let! result := CallAsync
          (getResolvedMetadata (tree props) (query props)
             (getDynamicParamFromSegment props) (metadataContext props)
             (createDynamicallyTrackedSearchParams props)
             (createDynamicallyTrackedParams props) (errorType props)) in
        Return (VPromise result)) initial_state).2 in
  let s' := drain resolveMetadata fuel s in
  (promise_state s' 0, resolver_calls s').

(** The argument object of a resolver pass made for [props] under the
    given error convention. *)
Definition pass_params (props : ComponentsProps) (errorConvention : option ErrorType)
    : ResolveParams :=
  {| rp_tree := tree props;
     rp_parentParams := [];
     rp_metadataItems := [];
     rp_errorMetadataItem := (null, null, null);
     rp_searchParams := createDynamicallyTrackedSearchParams props (query props);
     rp_getDynamicParamFromSegment := getDynamicParamFromSegment props;
     rp_errorConvention := errorConvention;
     rp_metadataContext := metadataContext props;
     rp_createDynamicallyTrackedParams := createDynamicallyTrackedParams props |}.

(** The first pass: its convention is derived from [errorType]. *)
Definition first_pass (props : ComponentsProps) : ResolveParams :=
  pass_params props
    match errorType props with
    | Some Redirect => None
    | _ => errorType props
    end.

(** The fallback pass, under the not-found convention. *)
Definition fallback_pass (props : ComponentsProps) : ResolveParams :=
  pass_params props (Some NotFound).

(** The run of [getResolvedMetadata], by cases on what the resolver
    answers. *)
Definition resolution_by_cases (props : ComponentsProps)
    : option PState * list ResolveParams :=
  match resolveMetadata 0 (first_pass props) with
  | Rejects e => (Some (Rejected (Thrown e)), [first_pass props])
  | Resolves (None, metadata, viewport) =>
      (Some (Fulfilled (VOutcome (None, createMetadataElements metadata viewport))),
       [first_pass props])
  | Resolves (Some err, _, _) =>
      if negb (bool_decide (is_Some (errorType props))) && isNotFoundError err then
        match resolveMetadata 1 (fallback_pass props) with
        | Rejects e =>
            (Some (Rejected (Thrown e)), [first_pass props; fallback_pass props])
        | Resolves (fallbackError, metadata, viewport) =>
            (Some (Fulfilled (VOutcome
                     (Some (default err fallbackError),
                      createMetadataElements metadata viewport))),
             [first_pass props; fallback_pass props])
        end
      else (Some (Fulfilled (VOutcome (Some err, []))), [first_pass props])
  end.

(** The statuses assigned to the [status] property of promise [p], in the
    order of the assignments. *)
Definition status_history (p : pid) (s : State) : list string :=
  omap (λ e, match e with
             | StatusAssigned q status => if bool_decide (q = p) then Some status else None
             | _ => None
             end) (events s).

(** The number of microtasks started so far. *)
Definition microtasks_started (s : State) : nat :=
  length (omap (λ e, match e with MicrotaskStarted => Some () | _ => None end)
               (events s)).

(** ** A request in which the head was never rendered *)

(** The deferred check of [getMetadataReady], as it sits in the queue. *)
Definition ready_check : Cmd :=
  let! current := ReadCurrentMetadataReady in
  match current with
  | Some metadataReady => Return (VPromise metadataReady)
  | None => Throw ordering_violation
  end.

(** A promise returned by [getMetadataReady] while no head was rendered:
    nobody subscribed to it, and it is pending or already rejected with
    the ordering violation. *)
Definition unrendered_promise (s : State) (p : pid) : Prop :=
  ∃ pr, heap s !! p = Some pr ∧ p_reactions pr = [] ∧
        (p_state pr = Pending ∨ p_state pr = Rejected ordering_violation).

(** What holds of a request in which [MetadataTree] was never called;
    [ps] are the promises [getMetadataReady] has returned. *)
Definition unrendered (s : State) (ps : list pid) : Prop :=
  currentMetadataReady s = None ∧
  Forall (λ j, job_cmd j = ready_check ∧ unrendered_promise s (job_target j))
         (queue s) ∧
  Forall (λ p, unrendered_promise s p ∧
               (promise_state s p = Some Pending →
                ∃ j, j ∈ queue s ∧ job_target j = p)) ps.

(** The number of [getMetadataReady()] calls in a script. *)
Definition ready_calls (script : list HostAction) : nat :=
  length (omap (λ a, match a with CallGetMetadataReady => Some () | _ => None end)
               script).

(** ** A request whose head has rendered and settled

    [base] is the heap at that point, [metadataReady] the published
    readiness state and [st] the state it settled in. *)

(** The reaction of a promise that follows the readiness state, once that
    has settled as [st]: it passes the value or the error on. *)
Definition outlet_reaction (st : PState) : Cmd :=
  match st with
  | Fulfilled v => Return v
  | Rejected e => Throw e
  | Pending => Return VUndefined
  end.

(** The three microtasks a [getMetadataReady] call goes through: the
    deferred check, the subscription to the readiness state the check
    returned, and the reaction of that subscription. *)
Definition outlet_stage (metadataReady : pid) (st : PState) (c : Cmd) : Prop :=
  c = ready_check ∨ c = Await metadataReady Return ∨ c = outlet_reaction st.

(** The microtasks a queued job of [getMetadataReady] still needs, itself
    included. *)
Definition outlet_weight (j : Job) : nat :=
  match job_cmd j with
  | ReadCurrentMetadataReady _ => 3
  | Await _ _ => 2
  | _ => 1
  end.

Definition outlet_work (q : list Job) : nat := sum_list (outlet_weight <$> q).

(** A promise returned by [getMetadataReady] after the render: allocated
    after [base], nobody subscribed to it, and it is pending or settled as
    the readiness state. *)
Definition outlet_promise (base : list Promise) (st : PState) (s : State) (p : pid)
    : Prop :=
  length base ≤ p ∧
  ∃ pr, heap s !! p = Some pr ∧ p_reactions pr = [] ∧
        (p_state pr = Pending ∨ p_state pr = st).

(** What holds of such a request as long as [MetadataTree] is not called
    again; [ps] are the promises [getMetadataReady] has returned since. *)
Definition rendered (base : list Promise) (metadataReady : pid) (st : PState)
    (s : State) (ps : list pid) : Prop :=
  currentMetadataReady s = Some metadataReady ∧
  length base ≤ length (heap s) ∧
  (∀ p, p < length base → heap s !! p = base !! p) ∧
  Forall (λ j, outlet_stage metadataReady st (job_cmd j) ∧
               outlet_promise base st s (job_target j)) (queue s) ∧
  Forall (λ p, outlet_promise base st s p ∧
               (promise_state s p = Some Pending →
                ∃ j, j ∈ queue s ∧ job_target j = p)) ps.

End Metadata.

Arguments with_heap {D} h s /.
Arguments with_queue {D} q s /.
Arguments with_current {D} c s /.
Arguments record_event {D} e s /.
Arguments new_promise {D} st /.
Arguments alloc {D} st s /.
Arguments update_promise {D} p f s /.
Arguments enqueue {D} jobs s /.
Arguments reaction_job {D} st r /.
Arguments settle {D} p st s /.
Arguments subscribe {D} p r s /.
Arguments resolve_promise {D} target v s /.
Arguments complete {D} target c s /.
Arguments resolver_calls {D} s /.
Arguments answer_state {D} a /.
Arguments run_job {D} resolveMetadata j s /.
Arguments promise_state {D} s p /.
Arguments host_call {D} resolveMetadata c s /.
Arguments createMetadataComponents {D C} props /.
Arguments render_MetadataTree {D C} resolveMetadata props s /.
Arguments call_getMetadataReady {D C} resolveMetadata props s /.
Arguments status_history {D} p s /.
Arguments microtasks_started {D} s /.
Arguments exec : simpl never.
Arguments drain : simpl never.

(* ===================================================================== *)
(** * A sample request *)
(* ===================================================================== *)

(** Concrete collaborators on which the statements below are exercised:
    trees, queries and metadata fields are strings, an empty field builds
    no tag, and [MetaFilter] flattens what the builders return. *)
Module Sample.

#[export] Instance domain : Domain := {|
  LoaderTree := string;
  ParsedUrlQuery := string;
  GetDynamicParamFromSegment := unit;
  CreateDynamicallyTrackedParams := unit;
  MetadataItems := unit;
  MetadataField := string;
  ResolvedViewport := string;
  Err := string;
  Tracking := list string;
|}.

(** [<meta name=... content=... />] *)
Definition meta (name content : string) : ReactElement :=
  {| el_type := "meta"; el_key := None;
     el_props := [("name", name); ("content", content)] |}.

Definition tag (name content : string) : ReactNode :=
  if bool_decide (content = "") then NodeNull else NodeElement (meta name content).

#[export] Instance collaborators : Collaborators := {|
  isNotFoundError := λ e, bool_decide (e = "NEXT_NOT_FOUND");
  MetaFilter := λ items, items ≫= rendered_elements;
  ViewportMeta := tag "viewport";
  BasicMeta := λ metadata, tag "description" (basic metadata);
  AlternatesMetadata := tag "alternates";
  ItunesMeta := tag "apple-itunes-app";
  FacebookMeta := tag "fb:app_id";
  FormatDetectionMeta := tag "format-detection";
  VerificationMeta := tag "google-site-verification";
  AppleWebAppMeta := tag "apple-mobile-web-app-title";
  OpenGraphMetadata := tag "og:title";
  TwitterMetadata := tag "twitter:card";
  AppLinksMeta := tag "al:web:url";
  IconsMetadata := tag "icon";
|}.

(** Metadata with a description and nothing else. *)
Definition metadata (description : string) : ResolvedMetadata :=
  {| alternates := ""; itunes := ""; facebook := ""; formatDetection := "";
     verification := ""; appleWebApp := ""; openGraph := ""; twitter := "";
     appLinks := ""; icons := ""; basic := description |}.

Definition props (sizeAdjust : bool) (errorType : option ErrorType) : ComponentsProps :=
  {| tree := "app/page";
     query := "?q=1";
     metadataContext :=
       createMetadataContext "/blog"
         {| ro_trailingSlash := false; ro_nextConfigOutput := None |};
     getDynamicParamFromSegment := ();
     appUsingSizeAdjustment := sizeAdjust;
     errorType := errorType;
     createDynamicallyTrackedSearchParams := λ q, q;
     createDynamicallyTrackedParams := () |}.

(** Every pass resolves cleanly. *)
Definition resolver_ok (calls : nat) (params : ResolveParams) : ResolverAnswer :=
  Resolves (None, metadata "a page", "width=device-width").

(** Every pass reports a generic error. *)
Definition resolver_error (calls : nat) (params : ResolveParams) : ResolverAnswer :=
  Resolves (Some "boom", metadata "", "").

(** A pass under no convention reports a not-found error; a pass under the
    not-found convention resolves the not-found page. *)
Definition resolver_not_found (calls : nat) (params : ResolveParams) : ResolverAnswer :=
  match rp_errorConvention params with
  | None => Resolves (Some "NEXT_NOT_FOUND", metadata "a page", "width=device-width")
  | Some _ => Resolves (None, metadata "not found", "width=device-width")
  end.

(** A static-generation store with one outstanding fallback parameter. *)
Definition prerender_store : StaticGenerationStore :=
  {| isStaticGeneration := true;
     fallbackRouteParams := Some {[ "slug" := "%%drp:slug%%" ]} |}.

(** Modelled from the spec: [trackFallbackParamAccessed] of
    [server/app-render/dynamic-rendering] is not part of this file. Reading
    the path while route parameters are outstanding "must record an access
    event and may be disallowed entirely": this tracker appends the
    expression to its record of accesses and refuses the access. *)
Definition refusing_tracker (store : StaticGenerationStore) (expression : string)
    (t : list string) : option JsError * list string :=
  (Some (NewError ("access to " +:+ expression +:+ " needs a fallback param")),
   t ++ [expression]).

(** The promise of every pass rejects. *)
Definition resolver_rejects (calls : nat) (params : ResolveParams) : ResolverAnswer :=
  Rejects "ECONNRESET".

(** The first pass of the request resolves cleanly; every later pass
    reports a generic error. *)
Definition resolver_then_error (calls : nat) (params : ResolveParams) : ResolverAnswer :=
  if bool_decide (calls = 0) then resolver_ok calls params
  else resolver_error calls params.

End Sample.

(* ===================================================================== *)
(** * Properties of the runtime *)
(* ===================================================================== *)

Section RuntimeFacts.
Context `{D : Domain} (resolveMetadata : nat → ResolveParams → ResolverAnswer).

(** The equations of [exec] and [drain], one per command, for running
    code step by step. *)
Lemma exec_Return v (s : State) :
  exec resolveMetadata (Return v) s = (Returned v, s).
Proof. reflexivity. Qed.

Lemma exec_Throw e (s : State) :
  exec resolveMetadata (Throw e) s = (Threw e, s).
Proof. reflexivity. Qed.

Lemma exec_Await p k (s : State) :
  exec resolveMetadata (Await p k) s = (Awaiting p k, s).
Proof. reflexivity. Qed.

Lemma exec_CallResolveMetadata params k (s : State) :
  exec resolveMetadata (CallResolveMetadata params k) s
  = exec resolveMetadata (k (length (heap s)))
      {| heap := heap s ++ [new_promise
                   (answer_state (resolveMetadata (length (resolver_calls s)) params))];
         queue := queue s;
         currentMetadataReady := currentMetadataReady s;
         events := events s ++ [ResolverCalled params] |}.
Proof. reflexivity. Qed.

Lemma exec_PromiseThen p onFulfilled onRejected k (s : State) :
  exec resolveMetadata (PromiseThen p onFulfilled onRejected k) s
  = exec resolveMetadata (k (length (heap s)))
      (subscribe p
         {| on_fulfilled := match onFulfilled with
                            | Some f => f (length (heap s))
                            | None => Return
                            end;
            on_rejected := match onRejected with
                           | Some g => g (length (heap s))
                           | None => Throw
                           end;
            r_target := length (heap s) |}
         (with_heap (heap s ++ [new_promise Pending]) s)).
Proof. reflexivity. Qed.

Lemma exec_PromiseResolve k (s : State) :
  exec resolveMetadata (PromiseResolve k) s
  = exec resolveMetadata (k (length (heap s)))
      (with_heap (heap s ++ [new_promise (Fulfilled VUndefined)]) s).
Proof. reflexivity. Qed.

Lemma exec_SetStatus p status k (s : State) :
  exec resolveMetadata (SetStatus p status k) s
  = exec resolveMetadata k
      (record_event (StatusAssigned p status)
         (update_promise p
            (λ pr, {| p_state := p_state pr; p_reactions := p_reactions pr;
                      p_status := Some status; p_value := p_value pr |}) s)).
Proof. reflexivity. Qed.

Lemma exec_SetValue p v k (s : State) :
  exec resolveMetadata (SetValue p v k) s
  = exec resolveMetadata k
      (update_promise p
         (λ pr, {| p_state := p_state pr; p_reactions := p_reactions pr;
                   p_status := p_status pr; p_value := Some v |}) s).
Proof. reflexivity. Qed.

Lemma exec_ReadCurrentMetadataReady k (s : State) :
  exec resolveMetadata (ReadCurrentMetadataReady k) s
  = exec resolveMetadata (k (currentMetadataReady s)) s.
Proof. reflexivity. Qed.

Lemma exec_WriteCurrentMetadataReady p k (s : State) :
  exec resolveMetadata (WriteCurrentMetadataReady p k) s
  = exec resolveMetadata k (with_current (Some p) s).
Proof. reflexivity. Qed.

Lemma exec_CallAsync body k (s : State) :
  exec resolveMetadata (CallAsync body k) s
  = let '(c, s2) :=
      exec resolveMetadata body (with_heap (heap s ++ [new_promise Pending]) s) in
    exec resolveMetadata (k (length (heap s))) (complete (length (heap s)) c s2).
Proof. reflexivity. Qed.

Lemma drain_0 (s : State) : drain resolveMetadata 0 s = s.
Proof. reflexivity. Qed.

Lemma drain_S fuel (s : State) :
  drain resolveMetadata (S fuel) s
  = match queue s with
    | [] => s
    | j :: q => drain resolveMetadata fuel (run_job resolveMetadata j (with_queue q s))
    end.
Proof. reflexivity. Qed.

Lemma drain_quiescent fuel (s : State) :
  queue s = [] → drain resolveMetadata fuel s = s.
Proof. intros Hq. destruct fuel as [|fuel]; [done|]. by rewrite drain_S, Hq. Qed.

Lemma drain_add n m (s : State) :
  drain resolveMetadata (n + m) s
  = drain resolveMetadata m (drain resolveMetadata n s).
Proof.
  revert s. induction n as [|n IH]; intros s; [done|].
  change (S n + m) with (S (n + m)). rewrite !drain_S.
  destruct (queue s) as [|j q] eqn:Hq; [|apply IH].
  by rewrite drain_quiescent.
Qed.

(** Once the queue is empty, more fuel changes nothing. *)
Lemma drain_enough n fuel (s : State) :
  queue (drain resolveMetadata n s) = [] → n ≤ fuel →
  drain resolveMetadata fuel s = drain resolveMetadata n s.
Proof.
  intros Hq Hle. replace fuel with (n + (fuel - n)) by lia.
  rewrite drain_add. by apply drain_quiescent.
Qed.

End RuntimeFacts.

(** Running code step by step: one command or one microtask at a time,
    with a case analysis wherever the run waits for what a collaborator
    answers. *)
Ltac exec_step :=
  match goal with
  | |- context [exec _ (Return _) _] => rewrite exec_Return
  | |- context [exec _ (Throw _) _] => rewrite exec_Throw
  | |- context [exec _ (Await _ _) _] => rewrite exec_Await
  | |- context [exec _ (CallResolveMetadata _ _) _] => rewrite exec_CallResolveMetadata
  | |- context [exec _ (PromiseThen _ _ _ _) _] => rewrite exec_PromiseThen
  | |- context [exec _ (PromiseResolve _) _] => rewrite exec_PromiseResolve
  | |- context [exec _ (SetStatus _ _ _) _] => rewrite exec_SetStatus
  | |- context [exec _ (SetValue _ _ _) _] => rewrite exec_SetValue
  | |- context [exec _ (ReadCurrentMetadataReady _) _] =>
      rewrite exec_ReadCurrentMetadataReady
  | |- context [exec _ (WriteCurrentMetadataReady _ _) _] =>
      rewrite exec_WriteCurrentMetadataReady
  | |- context [exec _ (CallAsync _ _) _] => rewrite exec_CallAsync
  end.

Ltac run_step resolveMetadata :=
  match goal with
  | H : errorType ?p = _ |- context [errorType ?p] => rewrite H
  | H : isNotFoundError ?e = _ |- context [isNotFoundError ?e] => rewrite H
  | H : resolveMetadata ?n ?p = _ |- context [resolveMetadata ?n ?p] => rewrite H
  | |- context [errorType ?p] => destruct (errorType p) as [[|]|] eqn:?
  | |- context [isNotFoundError ?e] => destruct (isNotFoundError e) eqn:?
  | |- context [resolveMetadata ?n ?p] =>
      destruct (resolveMetadata n p) as [[[[?|] ?] ?]|?] eqn:?
  | |- context [exec _ (getResolvedMetadata _ _ _ _ _ _ _) _] =>
      unfold getResolvedMetadata
  | |- context [exec _ (MetadataTree _) _] => unfold MetadataTree
  | |- context [exec _ getMetadataReady _] => unfold getMetadataReady
  | |- context [exec _ (metadataReady_onFulfilled _ _) _] =>
      unfold metadataReady_onFulfilled
  | |- context [exec _ (metadataReady_onRejected _ _) _] =>
      unfold metadataReady_onRejected
  | |- context [exec _ _ _] => exec_step
  | |- context [drain _ (S _) _] => rewrite drain_S
  | |- context [drain _ 0 _] => rewrite drain_0
  end; cbn.

Ltac run_cases resolveMetadata := cbn; repeat run_step resolveMetadata.

(** Running a script of several jobs: the innermost call or checkpoint
    first, so that no code runs on a state that is still to be computed. A
    checkpoint with symbolic fuel runs the number of microtasks its lower
    bound names, which must empty the queue. *)
Ltac settled s :=
  lazymatch s with
  | context [exec _ _ _] => fail
  | context [drain _ _ _] => fail
  | _ => idtac
  end.

Ltac script_step resolveMetadata :=
  match goal with
  | H : errorType ?p = _ |- context [errorType ?p] => rewrite H
  | H : isNotFoundError ?e = _ |- context [isNotFoundError ?e] => rewrite H
  | H : resolveMetadata ?n ?p = _ |- context [resolveMetadata ?n ?p] => rewrite H
  | |- context [errorType ?p] => destruct (errorType p) as [[|]|] eqn:?
  | |- context [isNotFoundError ?e] => destruct (isNotFoundError e) eqn:?
  | |- context [resolveMetadata ?n ?p] =>
      destruct (resolveMetadata n p) as [[[[?|] ?] ?]|?] eqn:?
  | |- context [exec resolveMetadata ?c ?s] =>
      settled s;
      lazymatch c with
      | getResolvedMetadata _ _ _ _ _ _ _ => unfold getResolvedMetadata
      | MetadataTree _ => unfold MetadataTree
      | getMetadataReady => unfold getMetadataReady
      | ready_check => unfold ready_check
      | metadataReady_onFulfilled _ _ => unfold metadataReady_onFulfilled
      | metadataReady_onRejected _ _ => unfold metadataReady_onRejected
      | Return _ => rewrite (exec_Return resolveMetadata _ s)
      | Throw _ => rewrite (exec_Throw resolveMetadata _ s)
      | Await _ _ => rewrite (exec_Await resolveMetadata _ _ s)
      | CallResolveMetadata _ _ => rewrite (exec_CallResolveMetadata resolveMetadata _ _ s)
      | PromiseThen _ _ _ _ => rewrite (exec_PromiseThen resolveMetadata _ _ _ _ s)
      | PromiseResolve _ => rewrite (exec_PromiseResolve resolveMetadata _ s)
      | SetStatus _ _ _ => rewrite (exec_SetStatus resolveMetadata _ _ _ s)
      | SetValue _ _ _ => rewrite (exec_SetValue resolveMetadata _ _ _ s)
      | ReadCurrentMetadataReady _ =>
          rewrite (exec_ReadCurrentMetadataReady resolveMetadata _ s)
      | WriteCurrentMetadataReady _ _ =>
          rewrite (exec_WriteCurrentMetadataReady resolveMetadata _ _ s)
      | CallAsync ?body _ =>
          lazymatch body with
          | getResolvedMetadata _ _ _ _ _ _ _ => unfold getResolvedMetadata
          | MetadataTree _ => unfold MetadataTree
          | _ => rewrite (exec_CallAsync resolveMetadata _ _ s)
          end
      end
  | |- context [drain resolveMetadata ?f ?s] =>
      settled s;
      lazymatch f with
      | S _ => rewrite (drain_S resolveMetadata _ s)
      | 0 => rewrite (drain_0 resolveMetadata s)
      | _ =>
          match goal with
          | H : ?n ≤ f |- _ =>
              rewrite (drain_enough resolveMetadata n f s)
                by first [ exact H | run_cases resolveMetadata; reflexivity ]
          end
      end
  end; cbn.

Ltac run_script resolveMetadata := cbn; repeat script_step resolveMetadata.

(* ===================================================================== *)
(** * The resolution orchestrator *)
(* ===================================================================== *)

Section Orchestrator.
Context `{C : Collaborators} (resolveMetadata : nat → ResolveParams → ResolverAnswer).

(** Two microtasks are enough for [getResolvedMetadata] to settle, and its
    run is the one [resolution_by_cases] describes. *)
Lemma resolution_spec props fuel :
  2 ≤ fuel →
  resolution resolveMetadata fuel props = resolution_by_cases resolveMetadata props.
Proof.
  intros Hfuel. unfold resolution, resolution_by_cases.
  rewrite (drain_enough _ 2 fuel); [ | | exact Hfuel ];
    unfold first_pass, fallback_pass, pass_params;
    run_cases resolveMetadata; reflexivity.
Qed.

(** C9. The first resolver pass, the one whose error convention is derived
    from [errorType], is always made, with the arguments of the call and
    with a convention that is undefined when [errorType] is ['redirect'] or
    absent and ['not-found'] exactly when [errorType] is ['not-found']. *)
Theorem getResolvedMetadata_error_convention props fuel :
  ∃ first rest,
    (resolution resolveMetadata fuel props).2 = first :: rest ∧
    first = pass_params props (rp_errorConvention first) ∧
    match errorType props with
    | Some Redirect | None => rp_errorConvention first = None
    | Some NotFound => rp_errorConvention first = Some NotFound
    end.
Proof.
  destruct (decide (2 ≤ fuel)) as [Hfuel|Hfuel].
  - rewrite resolution_spec by done.
    exists (first_pass props).
    unfold resolution_by_cases, first_pass, fallback_pass, pass_params.
    run_cases resolveMetadata; eauto.
  - unfold resolution.
    destruct fuel as [|[|fuel]]; [| |lia]; run_cases resolveMetadata; eauto.
Qed.

(** C8. When the first pass reports no error, [getResolvedMetadata] makes
    no other pass and returns [null] with the elements [MetaFilter] builds
    from the twelve builders in their fixed order, applied to the resolved
    metadata and viewport. *)
Theorem getResolvedMetadata_success props fuel metadata viewport :
  2 ≤ fuel →
  resolveMetadata 0 (first_pass props) = Resolves (None, metadata, viewport) →
  resolution resolveMetadata fuel props
  = (Some (Fulfilled (VOutcome
             (None,
              MetaFilter [
                ViewportMeta viewport;
                BasicMeta metadata;
                AlternatesMetadata (alternates metadata);
                ItunesMeta (itunes metadata);
                FacebookMeta (facebook metadata);
                FormatDetectionMeta (formatDetection metadata);
                VerificationMeta (verification metadata);
                AppleWebAppMeta (appleWebApp metadata);
                OpenGraphMetadata (openGraph metadata);
                TwitterMetadata (twitter metadata);
                AppLinksMeta (appLinks metadata);
                IconsMetadata (icons metadata) ]))),
     [first_pass props]).
Proof.
  intros Hfuel Hfirst. rewrite resolution_spec by done.
  unfold resolution_by_cases. by rewrite Hfirst.
Qed.

(** C3. When the first pass reports an error and either an [errorType] was
    given or the error is not a not-found error, the resolver is called
    exactly once and the result is that error with no elements. *)
Theorem getResolvedMetadata_no_fallback props fuel err metadata viewport :
  2 ≤ fuel →
  resolveMetadata 0 (first_pass props) = Resolves (Some err, metadata, viewport) →
  is_Some (errorType props) ∨ isNotFoundError err = false →
  resolution resolveMetadata fuel props
  = (Some (Fulfilled (VOutcome (Some err, []))), [first_pass props]).
Proof.
  intros Hfuel Hfirst Hgate. rewrite resolution_spec by done.
  unfold resolution_by_cases. rewrite Hfirst.
  destruct Hgate as [Htype|Hnf].
  - by rewrite bool_decide_eq_true_2.
  - by rewrite Hnf, andb_false_r.
Qed.

(** C1. When the first pass reports a not-found error and no [errorType]
    was given, exactly one more pass is made, under the ['not-found']
    convention and on the same tree. The result pairs the fallback pass's
    error, or the original error if it reported none, with the elements
    built from the fallback pass's metadata and viewport; nothing of the
    first pass's metadata is used. (Should the fallback pass's promise
    reject instead of reporting, [getResolvedMetadata] rejects with that
    reason.) *)
Theorem getResolvedMetadata_not_found_fallback props fuel err metadata viewport :
  2 ≤ fuel →
  errorType props = None →
  resolveMetadata 0 (first_pass props) = Resolves (Some err, metadata, viewport) →
  isNotFoundError err = true →
  (resolution resolveMetadata fuel props).2 = [first_pass props; fallback_pass props] ∧
  rp_errorConvention (fallback_pass props) = Some NotFound ∧
  rp_tree (fallback_pass props) = rp_tree (first_pass props) ∧
  match resolveMetadata 1 (fallback_pass props) with
  | Resolves (fallbackError, fallbackMetadata, fallbackViewport) =>
      (resolution resolveMetadata fuel props).1
      = Some (Fulfilled (VOutcome
                (Some match fallbackError with
                      | Some e => e
                      | None => err
                      end,
                 createMetadataElements fallbackMetadata fallbackViewport)))
  | Rejects e =>
      (resolution resolveMetadata fuel props).1 = Some (Rejected (Thrown e))
  end.
Proof.
  intros Hfuel Htype Hfirst Hnf. rewrite resolution_spec by done.
  unfold resolution_by_cases. rewrite Hfirst, Htype, Hnf. cbn.
  destruct (resolveMetadata 1 _) as [[[[e|] fm] fv]|e]; done.
Qed.

(** C2, as amended. Whenever [getResolvedMetadata] returns an error, either
    no fallback pass was made and the element list is empty, or the
    fallback pass was made and the elements are the ones built from what
    that pass resolved. *)
Theorem getResolvedMetadata_error_elements props fuel err elements :
  2 ≤ fuel →
  (resolution resolveMetadata fuel props).1
    = Some (Fulfilled (VOutcome (Some err, elements))) →
  ((resolution resolveMetadata fuel props).2 = [first_pass props] ∧ elements = [])
  ∨ ((resolution resolveMetadata fuel props).2
       = [first_pass props; fallback_pass props] ∧
     ∃ fallbackError metadata viewport,
       resolveMetadata 1 (fallback_pass props)
         = Resolves (fallbackError, metadata, viewport) ∧
       elements = createMetadataElements metadata viewport).
Proof.
  intros Hfuel. rewrite resolution_spec by done.
  unfold resolution_by_cases.
  destruct (resolveMetadata 0 _) as [[[[e|] m] v]|e]; [|done..].
  destruct (negb _ && isNotFoundError e).
  - destruct (resolveMetadata 1 _) as [[[fe fm] fv]|e'] eqn:Hfb; [|done].
    cbn. intros [= <- <-]. right. split; [done|]. by exists fe, fm, fv.
  - cbn. intros [= <- <-]. by left.
Qed.

End Orchestrator.

Section OrchestratorSample.
#[local] Existing Instances Sample.domain Sample.collaborators.

Lemma getResolvedMetadata_success_witness :
  2 ≤ 2 ∧
  Sample.resolver_ok 0 (first_pass (Sample.props false None))
    = Resolves (None, Sample.metadata "a page", "width=device-width") ∧
  resolution Sample.resolver_ok 2 (Sample.props false None)
  = (Some (Fulfilled (VOutcome
             (None, [Sample.meta "viewport" "width=device-width";
                     Sample.meta "description" "a page"]))),
     [first_pass (Sample.props false None)]).
Proof.
  split; [lia|]. split; [reflexivity|].
  exact (getResolvedMetadata_success Sample.resolver_ok (Sample.props false None) 2
           (Sample.metadata "a page") "width=device-width" ltac:(lia) eq_refl).
Defined.

Lemma getResolvedMetadata_no_fallback_witness :
  2 ≤ 2 ∧
  Sample.resolver_error 0 (first_pass (Sample.props false None))
    = Resolves (Some "boom", Sample.metadata "", "") ∧
  isNotFoundError ("boom" : Err) = false ∧
  resolution Sample.resolver_error 2 (Sample.props false None)
  = (Some (Fulfilled (VOutcome (Some "boom", []))),
     [first_pass (Sample.props false None)]).
Proof.
  split; [lia|]. split; [reflexivity|]. split; [reflexivity|].
  exact (getResolvedMetadata_no_fallback Sample.resolver_error (Sample.props false None)
           2 "boom" (Sample.metadata "") "" ltac:(lia) eq_refl (or_intror eq_refl)).
Defined.

Lemma getResolvedMetadata_not_found_fallback_witness :
  2 ≤ 2 ∧
  errorType (Sample.props false None) = None ∧
  Sample.resolver_not_found 0 (first_pass (Sample.props false None))
    = Resolves (Some "NEXT_NOT_FOUND", Sample.metadata "a page", "width=device-width") ∧
  isNotFoundError ("NEXT_NOT_FOUND" : Err) = true ∧
  (resolution Sample.resolver_not_found 2 (Sample.props false None)).2
  = [first_pass (Sample.props false None); fallback_pass (Sample.props false None)] ∧
  (resolution Sample.resolver_not_found 2 (Sample.props false None)).1
  = Some (Fulfilled (VOutcome
            (Some "NEXT_NOT_FOUND",
             createMetadataElements (Sample.metadata "not found") "width=device-width"))).
Proof.
  split; [lia|]. split; [reflexivity|]. split; [reflexivity|]. split; [reflexivity|].
  pose proof (getResolvedMetadata_not_found_fallback Sample.resolver_not_found
                (Sample.props false None) 2 "NEXT_NOT_FOUND"
                (Sample.metadata "a page") "width=device-width"
                ltac:(lia) eq_refl eq_refl eq_refl) as (Hcalls & _ & _ & Hresult).
  split; [exact Hcalls|exact Hresult].
Defined.

(** C2, the claim as stated fails: a not-found error with no [errorType]
    comes back together with the elements of the not-found page. *)
Lemma getResolvedMetadata_error_with_elements :
  (resolution Sample.resolver_not_found 2 (Sample.props false None)).1
  = Some (Fulfilled (VOutcome
            (Some "NEXT_NOT_FOUND",
             [Sample.meta "viewport" "width=device-width";
              Sample.meta "description" "not found"]))).
Proof. vm_compute. reflexivity. Qed.

Lemma getResolvedMetadata_error_elements_witness :
  2 ≤ 2 ∧
  (resolution Sample.resolver_error 2 (Sample.props false None)).1
    = Some (Fulfilled (VOutcome (Some "boom", []))) ∧
  (((resolution Sample.resolver_error 2 (Sample.props false None)).2
      = [first_pass (Sample.props false None)] ∧
    ([] : list ReactElement) = [])
   ∨ ((resolution Sample.resolver_error 2 (Sample.props false None)).2
        = [first_pass (Sample.props false None);
           fallback_pass (Sample.props false None)] ∧
      ∃ fallbackError metadata viewport,
        Sample.resolver_error 1 (fallback_pass (Sample.props false None))
          = Resolves (fallbackError, metadata, viewport) ∧
        [] = createMetadataElements metadata viewport)).
Proof.
  split; [lia|]. split; [vm_compute; reflexivity|].
  apply (getResolvedMetadata_error_elements Sample.resolver_error
           (Sample.props false None) 2 "boom" []); [lia|vm_compute; reflexivity].
Defined.

End OrchestratorSample.

(* ===================================================================== *)
(** * The head unit and the readiness state *)
(* ===================================================================== *)

Section HeadUnit.
Context `{C : Collaborators} (resolveMetadata : nat → ResolveParams → ResolverAnswer).

Lemma render_pass_unfold fuel props :
  render_pass resolveMetadata fuel props
  = ([(render_MetadataTree resolveMetadata props initial_state).1],
     drain resolveMetadata fuel
       (render_MetadataTree resolveMetadata props initial_state).2).
Proof.
  unfold render_pass, run_host.
  by destruct (render_MetadataTree resolveMetadata props initial_state).
Qed.

(** Five microtasks empty the queue: at most two for the resolver passes,
    then the readiness handler, the continuation of [MetadataTree] and the
    throwaway [catch] handler. *)
Lemma render_pass_quiescent props :
  queue (drain resolveMetadata 5
           (render_MetadataTree resolveMetadata props initial_state).2) = [].
Proof. run_cases resolveMetadata; reflexivity. Qed.

Lemma render_pass_enough fuel props :
  5 ≤ fuel →
  render_pass resolveMetadata fuel props = render_pass resolveMetadata 5 props.
Proof.
  intros Hfuel. rewrite !render_pass_unfold.
  by rewrite (drain_enough _ 5 fuel) by (exact Hfuel || apply render_pass_quiescent).
Qed.

(** X4. When the promise of [getResolvedMetadata] itself rejects (a
    resolver pass rejected instead of reporting its error), there is no
    outcome to take elements from: the [await] in [MetadataTree] throws and
    the head rejects with the same reason, as the readiness state does. *)
Lemma render_pass_rejection props fuel reason :
  5 ≤ fuel →
  (resolution resolveMetadata fuel props).1 = Some (Rejected reason) →
  ∃ result metadataReady s,
    render_pass resolveMetadata fuel props = ([Returned (VPromise result)], s) ∧
    promise_state s result = Some (Rejected reason) ∧
    currentMetadataReady s = Some metadataReady ∧
    promise_state s metadataReady = Some (Rejected reason).
Proof.
  intros Hfuel.
  rewrite render_pass_enough, resolution_spec by lia.
  rewrite render_pass_unfold.
  unfold resolution_by_cases, first_pass, fallback_pass, pass_params.
  run_cases resolveMetadata; intros [= <-] || intros [=];
    eexists 0, 3, _; repeat split; reflexivity.
Qed.

(** C5. In one render, [MetadataTree] publishes the readiness state with
    [status] already ['pending'] before any microtask has run. When the
    queue has drained, [status] was assigned exactly once more: to
    ['fulfilled'] with [value] [undefined] when the resolution reported no
    error, to ['rejected'] with [value] the error when it reported one (or
    when its promise rejected). The promise itself settled accordingly, and
    no microtask or reaction is left that could assign [status] again. *)
Theorem metadataReady_status_transitions props fuel :
  5 ≤ fuel →
  let s0 := (render_MetadataTree resolveMetadata props initial_state).2 in
  let s1 := (render_pass resolveMetadata fuel props).2 in
  ∃ metadataReady,
    currentMetadataReady s0 = Some metadataReady ∧
    microtasks_started s0 = 0 ∧
    status_history metadataReady s0 = ["pending"] ∧
    promise_state s0 metadataReady = Some Pending ∧
    queue s1 = [] ∧
    Forall (λ pr, p_reactions pr = []) (heap s1) ∧
    currentMetadataReady s1 = Some metadataReady ∧
    ∃ status value,
      status_history metadataReady s1 = ["pending"; status] ∧
      p_status <$> heap s1 !! metadataReady = Some (Some status) ∧
      p_value <$> heap s1 !! metadataReady = Some (Some value) ∧
      match (resolution resolveMetadata fuel props).1 with
      | Some (Fulfilled (VOutcome (None, _))) =>
          status = "fulfilled" ∧ value = VUndefined ∧
          promise_state s1 metadataReady = Some (Fulfilled VUndefined)
      | Some (Fulfilled (VOutcome (Some err, _))) =>
          status = "rejected" ∧ value = VError (Thrown err) ∧
          promise_state s1 metadataReady = Some (Rejected (Thrown err))
      | Some (Rejected e) =>
          status = "rejected" ∧ value = VError e ∧
          promise_state s1 metadataReady = Some (Rejected e)
      | _ => False
      end.
Proof.
  intros Hfuel s0 s1. subst s0 s1.
  rewrite render_pass_enough, resolution_spec by lia.
  rewrite render_pass_unfold.
  exists 3. unfold resolution_by_cases, first_pass, fallback_pass, pass_params.
  run_cases resolveMetadata;
    (split; [reflexivity|]); (split; [reflexivity|]); (split; [reflexivity|]);
    (split; [reflexivity|]); (split; [reflexivity|]);
    (split; [by repeat constructor|]); (split; [reflexivity|]);
    eexists _, _; repeat split; reflexivity.
Qed.

(** C6, as the code behaves. For every outcome the resolution reports as a
    pair, with or without an error, [MetadataTree] completes: its promise is
    fulfilled with the fragment rendered from the outcome's elements (none,
    when there are none), and the error only reaches the readiness state
    that [getMetadataReady] hands out. But when the promise of the
    resolution itself rejects (the promise of a resolver pass rejected), the
    [await] of line 148 throws: the promise of [MetadataTree] is rejected
    with the same reason, so this failure surfaces from the head itself as
    well as through the readiness state. *)
Theorem MetadataTree_settles props fuel :
  5 ≤ fuel →
  ∃ result metadataReady s,
    render_pass resolveMetadata fuel props = ([Returned (VPromise result)], s) ∧
    queue s = [] ∧
    currentMetadataReady s = Some metadataReady ∧
    match (resolution resolveMetadata fuel props).1 with
    | Some (Fulfilled (VOutcome (error, elements))) =>
        promise_state s result
          = Some (Fulfilled
                    (VNode (MetadataTree_output (appUsingSizeAdjustment props) elements))) ∧
        promise_state s metadataReady
          = Some match error with
                 | Some err => Rejected (Thrown err)
                 | None => Fulfilled VUndefined
                 end
    | Some (Rejected reason) =>
        promise_state s result = Some (Rejected reason) ∧
        promise_state s metadataReady = Some (Rejected reason)
    | _ => False
    end.
Proof.
  intros Hfuel.
  rewrite render_pass_enough, resolution_spec by lia.
  rewrite render_pass_unfold.
  unfold resolution_by_cases, first_pass, fallback_pass, pass_params.
  run_cases resolveMetadata; eexists 0, 3, _; repeat split; reflexivity.
Qed.

(** The elements the output of [MetadataTree] renders: the clones, then
    the size-adjust tag if asked for. *)
Lemma rendered_elements_output sizeAdjust (elements : list ReactElement) :
  rendered_elements (MetadataTree_output sizeAdjust elements)
  = imap (λ index el, cloneElement_with_key el index) elements
    ++ (if sizeAdjust then [size_adjust_meta] else []).
Proof.
  unfold MetadataTree_output. cbn.
  assert (∀ (f : nat → ReactElement → ReactElement) l,
    (fix go (l0 : list ReactNode) : list ReactElement :=
       match l0 with
       | [] => []
       | x :: l' => rendered_elements x ++ go l'
       end) (imap (λ index el, NodeElement (f index el)) l)
    = imap f l) as Hgo.
  { intros f l. revert f. induction l as [|x l IH]; intros f; [done|].
    cbn. f_equal. apply (IH (f ∘ S)). }
  rewrite (Hgo (λ index el, cloneElement_with_key el index)).
  destruct sizeAdjust; reflexivity.
Qed.

(** C7. After a successful resolution the output of [MetadataTree] renders
    one element per element the builders produced, at the same index: it
    has the type and the props of the builder's element, and its key is
    that index. Then comes the tag [<meta name="next-size-adjust" />],
    without a key, if [appUsingSizeAdjustment] is set, and nothing more if
    it is not. *)
Theorem MetadataTree_output_elements props fuel metadata viewport :
  5 ≤ fuel →
  resolveMetadata 0 (first_pass props) = Resolves (None, metadata, viewport) →
  let built := createMetadataElements metadata viewport in
  ∃ result s output,
    render_pass resolveMetadata fuel props = ([Returned (VPromise result)], s) ∧
    promise_state s result = Some (Fulfilled (VNode output)) ∧
    length (rendered_elements output)
      = length built + (if appUsingSizeAdjustment props then 1 else 0) ∧
    (∀ index el, built !! index = Some el →
       rendered_elements output !! index
       = Some {| el_type := el_type el;
                 el_key := Some (KeyIndex index);
                 el_props := el_props el |}) ∧
    rendered_elements output !! length built
      = (if appUsingSizeAdjustment props
         then Some {| el_type := "meta";
                      el_key := None;
                      el_props := [("name", "next-size-adjust")] |}
         else None).
Proof.
  intros Hfuel Hfirst built.
  assert (∃ s,
    render_pass resolveMetadata fuel props = ([Returned (VPromise 0)], s) ∧
    promise_state s 0
      = Some (Fulfilled
                (VNode (MetadataTree_output (appUsingSizeAdjustment props) built))))
    as (s & Hrun & Hresult).
  { rewrite render_pass_enough, render_pass_unfold by lia.
    unfold first_pass, pass_params in Hfirst. subst built.
    destruct (errorType props) as [[|]|] eqn:Htype;
      run_cases resolveMetadata; eexists; split; reflexivity. }
  exists 0, s, (MetadataTree_output (appUsingSizeAdjustment props) built).
  split; [done|]. split; [done|].
  rewrite rendered_elements_output. repeat split.
  - rewrite length_app, length_imap. by destruct (appUsingSizeAdjustment props).
  - intros index el Hel. rewrite lookup_app_l.
    + by rewrite list_lookup_imap, Hel.
    + rewrite length_imap. by eapply lookup_lt_Some.
  - rewrite lookup_app_r by (by rewrite length_imap).
    rewrite length_imap, Nat.sub_diag. by destruct (appUsingSizeAdjustment props).
Qed.

End HeadUnit.

(* ===================================================================== *)
(** * The fault outlet *)
(* ===================================================================== *)

Section FaultOutlet.
Context `{C : Collaborators} (resolveMetadata : nat → ResolveParams → ResolverAnswer).

Lemma unrendered_initial : unrendered initial_state [].
Proof. repeat split; constructor. Qed.

Lemma getMetadataReady_call (s : State) :
  host_call resolveMetadata getMetadataReady s
  = (Returned (VPromise (S (length (heap s)))),
     {| heap := heap s ++ [new_promise (Fulfilled VUndefined); new_promise Pending];
        queue := queue s ++ [ {| job_cmd := ready_check;
                                 job_target := S (length (heap s)) |} ];
        currentMetadataReady := currentMetadataReady s;
        events := events s |}).
Proof.
  unfold host_call, getMetadataReady.
  rewrite exec_PromiseResolve, exec_PromiseThen, exec_Return. cbn.
  rewrite length_app, Nat.add_1_r. cbn.
  rewrite lookup_app_l by (rewrite length_app; cbn; lia).
  rewrite lookup_app_r by lia. rewrite Nat.sub_diag. cbn.
  by rewrite <- app_assoc.
Qed.

Lemma unrendered_promise_alloc (s s' : State) l p :
  heap s' = heap s ++ l → unrendered_promise s p → unrendered_promise s' p.
Proof.
  intros Hheap (pr & Hp & Hpr). exists pr. split; [|done].
  rewrite Hheap. apply lookup_app_l_Some, Hp.
Qed.

Lemma unrendered_call (s : State) ps :
  unrendered s ps →
  unrendered (host_call resolveMetadata getMetadataReady s).2
    (ps ++ [S (length (heap s))]).
Proof.
  intros (Hcur & Hqueue & Hps). rewrite getMetadataReady_call.
  set (s' := (_, _).2). cbn in s'.
  assert (unrendered_promise s' (S (length (heap s)))) as Hnew.
  { exists (new_promise Pending). split; [|by split; [|left]].
    subst s'. cbn. rewrite lookup_app_r by lia.
    by replace (S (length (heap s)) - length (heap s)) with 1 by lia. }
  assert (∀ p, unrendered_promise s p → unrendered_promise s' p) as Hmono.
  { intros p. by apply unrendered_promise_alloc with
      (l := [new_promise (Fulfilled VUndefined); new_promise Pending]). }
  split; [done|]. split.
  - subst s'. cbn. apply Forall_app. split.
    + eapply Forall_impl; [exact Hqueue|]. intros j [? ?]. split; [done|]. by apply Hmono.
    + by repeat constructor.
  - apply Forall_app. split.
    + eapply Forall_impl; [exact Hps|]. intros p [Hp Hpending]. split; [by apply Hmono|].
      intros Hstate. destruct Hpending as (j & Hj & Htarget).
      { destruct Hp as (pr & Hlook & _). revert Hstate. unfold promise_state. subst s'. cbn.
        by rewrite (lookup_app_l_Some _ _ _ _ Hlook), Hlook. }
      exists j. split; [|done]. subst s'. cbn. apply elem_of_app. by left.
    + constructor; [|constructor]. split; [done|]. intros _.
      exists {| job_cmd := ready_check; job_target := S (length (heap s)) |}.
      split; [|done]. subst s'. cbn. apply elem_of_app. right. by left.
Qed.

Lemma unrendered_step (s s' : State) ps j q :
  unrendered s ps → queue s = j :: q →
  currentMetadataReady s' = None → queue s' = q →
  (∀ p, unrendered_promise s p → unrendered_promise s' p) →
  (∀ p, promise_state s' p = Some Pending →
        promise_state s p = Some Pending ∧ p ≠ job_target j) →
  unrendered s' ps.
Proof.
  intros (Hcur & Hqueue & Hps) Hq Hcur' Hq' Hmono Hpending.
  rewrite Hq in Hqueue. apply Forall_cons in Hqueue as [_ Hrest].
  split; [done|]. split.
  - rewrite Hq'. eapply Forall_impl; [exact Hrest|].
    intros j' [? ?]. split; [done|]. by apply Hmono.
  - eapply Forall_impl; [exact Hps|]. intros p [Hp Hjob]. split; [by apply Hmono|].
    intros Hstate. destruct (Hpending p Hstate) as [Hstate' Hne].
    destruct (Hjob Hstate') as (j' & Hj' & Htarget).
    rewrite Hq in Hj'. apply elem_of_cons in Hj' as [->|Hj']; [done|].
    exists j'. by rewrite Hq'.
Qed.

Lemma unrendered_job (s : State) ps j q :
  unrendered s ps → queue s = j :: q →
  unrendered (run_job resolveMetadata j (with_queue q s)) ps ∧
  queue (run_job resolveMetadata j (with_queue q s)) = q.
Proof.
  intros Hinv Hq. pose proof Hinv as (Hcur & Hqueue & _).
  rewrite Hq in Hqueue. apply Forall_cons in Hqueue as [[Hcmd Htarget] _].
  unfold run_job. rewrite Hcmd. unfold ready_check.
  rewrite exec_ReadCurrentMetadataReady. cbn. rewrite Hcur, exec_Throw. cbn.
  destruct Htarget as (pr & Hlook & Hreactions & [Hstate|Hstate]);
    rewrite Hlook, Hstate, ?Hreactions; cbn; rewrite ?app_nil_r; (split; [|done]).
  - eapply unrendered_step; [exact Hinv|exact Hq|done|done| |].
    + intros p (pr' & Hlook' & Hpr'). unfold unrendered_promise. cbn.
      destruct (decide (p = job_target j)) as [->|Hne].
      * rewrite list_lookup_insert_eq by (by eapply lookup_lt_Some).
        eexists. split; [done|]. cbn. split; [done|by right].
      * rewrite list_lookup_insert_ne by done. by exists pr'.
    + intros p. unfold promise_state. cbn.
      destruct (decide (p = job_target j)) as [->|Hne].
      * by rewrite list_lookup_insert_eq by (by eapply lookup_lt_Some).
      * by rewrite list_lookup_insert_ne by done.
  - eapply unrendered_step; [exact Hinv|exact Hq|done|done| |].
    + intros p Hp. exact Hp.
    + intros p. unfold promise_state. cbn. intros Hp. split; [done|].
      intros ->. rewrite Hlook in Hp. cbn in Hp. by rewrite Hstate in Hp.
Qed.

Lemma unrendered_drain fuel (s : State) ps :
  unrendered s ps →
  unrendered (drain resolveMetadata fuel s) ps ∧
  length (queue (drain resolveMetadata fuel s)) = length (queue s) - fuel.
Proof.
  revert s. induction fuel as [|fuel IH]; intros s Hinv.
  - rewrite drain_0. split; [done|lia].
  - rewrite drain_S. destruct (queue s) as [|j q] eqn:Hq.
    + split; [done|]. by rewrite Hq.
    + destruct (unrendered_job s ps j q Hinv Hq) as [Hinv' Hq'].
      destruct (IH _ Hinv') as [? Hlen]. split; [done|].
      rewrite Hlen, Hq'. reflexivity.
Qed.

Lemma unrendered_settled (s : State) ps :
  unrendered s ps → queue s = [] →
  Forall (λ p, promise_state s p = Some (Rejected ordering_violation)) ps.
Proof.
  intros (_ & _ & Hps) Hq. eapply Forall_impl; [exact Hps|].
  intros p [(pr & Hlook & _ & [Hstate|Hstate]) Hjob]; unfold promise_state in *;
    rewrite Hlook in *; cbn in *; rewrite Hstate in *; [|done].
  destruct Hjob as (j & Hj & _); [done|]. rewrite Hq in Hj. by apply elem_of_nil in Hj.
Qed.

Lemma unrendered_run_host props script fuel (s : State) ps :
  unrendered s ps →
  RenderMetadataTree ∉ script →
  length (queue s) + length script ≤ fuel →
  ∃ ps',
    length ps' = ready_calls script ∧
    (run_host resolveMetadata props (script ++ [MicrotaskCheckpoint fuel]) s).1
      = (λ p, Returned (VPromise p)) <$> ps' ∧
    unrendered (run_host resolveMetadata props (script ++ [MicrotaskCheckpoint fuel]) s).2
      (ps ++ ps') ∧
    queue (run_host resolveMetadata props (script ++ [MicrotaskCheckpoint fuel]) s).2 = [].
Proof.
  revert s ps. induction script as [|action script IH]; intros s ps Hinv Hnotin Hfuel.
  - exists []. cbn. rewrite app_nil_r.
    destruct (unrendered_drain fuel s ps Hinv) as [Hinv' Hlen].
    split; [done|]. split; [done|]. split; [done|].
    apply length_zero_iff_nil. cbn in Hfuel. lia.
  - apply not_elem_of_cons in Hnotin as [Hne Hnotin].
    destruct action as [| |fuel']; [done| |]; cbn [app run_host].
    + change (call_getMetadataReady resolveMetadata props s)
        with (host_call resolveMetadata getMetadataReady s).
      pose proof (unrendered_call s ps Hinv) as Hinv'.
      rewrite getMetadataReady_call in *. cbn [snd] in Hinv'.
      destruct (IH _ _ Hinv' Hnotin) as (ps' & Hlen & Hres & Hinv'' & Hq).
      { cbn. rewrite length_app. cbn in *. lia. }
      destruct (run_host _ _ _ _) as [results s']. cbn in *.
      exists (S (length (heap s)) :: ps'). rewrite Hres.
      split; [cbn; by rewrite Hlen|]. split; [done|]. split; [|done].
      by rewrite <- app_assoc in Hinv''.
    + destruct (unrendered_drain fuel' s ps Hinv) as [Hinv' Hlen].
      apply (IH _ _ Hinv' Hnotin). cbn in Hfuel. lia.
Qed.

(** C4, as amended. In a request where [MetadataTree] is not called by
    the time the microtask queue drains, every promise [getMetadataReady]
    has returned is rejected with the ordering violation once the queue
    has drained: none is left pending and none is fulfilled. One microtask
    per call is enough fuel. *)
Theorem getMetadataReady_before_render props script fuel :
  RenderMetadataTree ∉ script →
  length script ≤ fuel →
  ∃ promises s,
    run_host resolveMetadata props (script ++ [MicrotaskCheckpoint fuel]) initial_state
      = ((λ p, Returned (VPromise p)) <$> promises, s) ∧
    length promises = ready_calls script ∧
    queue s = [] ∧
    Forall (λ p, promise_state s p = Some (Rejected ordering_violation)) promises.
Proof.
  intros Hnotin Hfuel.
  destruct (unrendered_run_host props script fuel initial_state []
              unrendered_initial Hnotin)
    as (promises & Hlen & Hresults & Hinv & Hq); [done|].
  destruct (run_host _ _ _ _) as [results s]. cbn in *. subst results.
  exists promises, s. split; [done|]. split; [done|]. split; [done|].
  by apply unrendered_settled.
Qed.

(** Called once the readiness state is published and settled,
    [getMetadataReady] returns a promise that, three microtasks later (the
    deferred check, the subscription to the readiness state, and its
    reaction), has settled the same way. The promises that existed before
    the call are untouched. *)
Lemma getMetadataReady_follows (s : State) metadataReady st fuel :
  queue s = [] →
  currentMetadataReady s = Some metadataReady →
  promise_state s metadataReady = Some st →
  st = Fulfilled VUndefined ∨ (∃ e, st = Rejected e) →
  3 ≤ fuel →
  let s' := drain resolveMetadata fuel (host_call resolveMetadata getMetadataReady s).2 in
  (host_call resolveMetadata getMetadataReady s).1
    = Returned (VPromise (S (length (heap s)))) ∧
  queue s' = [] ∧
  promise_state s' (S (length (heap s))) = Some st ∧
  ∀ p, p < length (heap s) → heap s' !! p = heap s !! p.
Proof.
  intros Hq Hcur Hstate Hst Hfuel. rewrite getMetadataReady_call. cbn [fst snd].
  split; [done|]. rewrite Hq, Hcur. cbn [app].
  unfold promise_state in Hstate.
  destruct (heap s !! metadataReady) as [pr|] eqn:Hlook; [|done].
  cbn in Hstate. injection Hstate as Hpr.
  assert (metadataReady < length (heap s)) as Hlt by (by eapply lookup_lt_Some).
  set (h := heap s ++ _).
  assert (h !! metadataReady = Some pr) as Hlook'.
  { subst h. by apply lookup_app_l_Some. }
  assert (h !! (S (length (heap s)) : pid) = Some (new_promise Pending)) as Hnew.
  { subst h. rewrite lookup_app_r by lia.
    by replace (S (length (heap s)) - length (heap s)) with 1 by lia. }
  assert (∀ p, p < length (heap s) → h !! p = heap s !! p) as Hold.
  { intros p Hp. subst h. by apply lookup_app_l. }
  clearbody h.
  set (s1 := {| heap := h; queue := _; currentMetadataReady := _; events := _ |}).
  assert (queue (drain resolveMetadata 3 s1) = [] ∧
          promise_state (drain resolveMetadata 3 s1) (S (length (heap s))) = Some st ∧
          ∀ p, p < length (heap s) →
               heap (drain resolveMetadata 3 s1) !! p = heap s !! p) as H3.
  { subst s1. unfold ready_check. rewrite drain_S. cbn.
    rewrite exec_ReadCurrentMetadataReady. cbn. rewrite exec_Return. cbn.
    rewrite drain_S. cbn. rewrite exec_Await. cbn. rewrite Hlook', Hpr.
    destruct Hst as [->|[e ->]]; cbn; rewrite drain_S; cbn;
      rewrite ?exec_Return, ?exec_Throw; cbn; rewrite Hnew; cbn; rewrite drain_0; cbn.
    all: split; [done|]; split;
      [ by rewrite list_lookup_insert_eq by (by eapply lookup_lt_Some)
      | intros p Hp; rewrite list_lookup_insert_ne by lia; by apply Hold ]. }
  by rewrite (drain_enough _ 3 fuel) by (apply H3 || done).
Qed.

(** The whole protocol: the head is rendered, the queue drains, the outlet
    is called, the queue drains. The head's promise is fulfilled with the
    elements of the outcome, the outlet's promise is rejected with its error
    if it has one and fulfilled with [undefined] if not. *)
Lemma getMetadataReady_after_render props fuel fuel' error elements :
  5 ≤ fuel → 3 ≤ fuel' →
  (resolution resolveMetadata fuel props).1
    = Some (Fulfilled (VOutcome (error, elements))) →
  ∃ head outlet s,
    run_host resolveMetadata props
      [RenderMetadataTree; MicrotaskCheckpoint fuel;
       CallGetMetadataReady; MicrotaskCheckpoint fuel'] initial_state
    = ([Returned (VPromise head); Returned (VPromise outlet)], s) ∧
    queue s = [] ∧
    promise_state s head
      = Some (Fulfilled
                (VNode (MetadataTree_output (appUsingSizeAdjustment props) elements))) ∧
    promise_state s outlet
      = Some match error with
             | Some err => Rejected (Thrown err)
             | None => Fulfilled VUndefined
             end.
Proof.
  intros Hfuel Hfuel' Houtcome.
  assert (∃ s0,
    render_pass resolveMetadata fuel props = ([Returned (VPromise 0)], s0) ∧
    queue s0 = [] ∧ 0 < length (heap s0) ∧
    promise_state s0 0
      = Some (Fulfilled
                (VNode (MetadataTree_output (appUsingSizeAdjustment props) elements))) ∧
    currentMetadataReady s0 = Some 3 ∧
    promise_state s0 3
      = Some match error with
             | Some err => Rejected (Thrown err)
             | None => Fulfilled VUndefined
             end) as (s0 & Hrun & Hq & Hlen & Hhead & Hcur & Hready).
  { revert Houtcome. rewrite render_pass_enough, resolution_spec by lia.
    rewrite render_pass_unfold.
    unfold resolution_by_cases, first_pass, fallback_pass, pass_params.
    run_cases resolveMetadata; intros [= <- <-] || intros [=];
      eexists; repeat split; cbn; lia. }
  destruct (getMetadataReady_follows s0 3 _ fuel' Hq Hcur Hready)
    as (Hcall & Hq' & Houtlet & Hframe); [by destruct error; eauto|done|].
  unfold render_pass in Hrun. cbn [run_host] in Hrun |- *.
  destruct (render_MetadataTree resolveMetadata props initial_state) as [c s1].
  injection Hrun as -> <-.
  change (call_getMetadataReady resolveMetadata props ?s)
    with (host_call resolveMetadata getMetadataReady s).
  destruct (host_call resolveMetadata getMetadataReady _) as [c' s2].
  cbn [fst snd] in *. subst c'.
  eexists 0, _, _. split; [reflexivity|]. split; [done|]. split; [|done].
  unfold promise_state in *. by rewrite Hframe.
Qed.

End FaultOutlet.

(* ===================================================================== *)
(** * The tracked pathname *)
(* ===================================================================== *)

Section TrackedContext.
Context `{D : Domain}.

(** C10, as amended. Reading [pathname] of a tracked context never yields
    anything but the original pathname. With the trap closed (no store, no
    static generation, or no outstanding fallback route parameter) the
    read returns the pathname and leaves the tracker as it was. With the
    trap open the tracker is called once, with the store and ['pathname'];
    the tracker's state is what that call leaves, and the read returns the
    pathname unless the call throws, in which case the read throws the
    same error. *)
Theorem tracked_pathname_read trackFallbackParamAccessed path renderOpts store
    (t : Tracking) :
  let context :=
    createTrackedMetadataContext trackFallbackParamAccessed path renderOpts store in
  (∀ value t', pathname context t = (inl value, t') → value = path) ∧
  ((¬ ∃ st params, store = Some st ∧ isStaticGeneration st = true ∧
                   fallbackRouteParams st = Some params ∧ params ≠ ∅) →
   pathname context t = (inl path, t)) ∧
  (∀ st params,
     store = Some st → isStaticGeneration st = true →
     fallbackRouteParams st = Some params → params ≠ ∅ →
     pathname context t
     = (match (trackFallbackParamAccessed st "pathname" t).1 with
        | Some e => inr e
        | None => inl path
        end, (trackFallbackParamAccessed st "pathname" t).2)).
Proof.
  cbn. repeat split.
  - intros value t'. destruct store as [st|]; [|by intros [= <-]].
    destruct (isStaticGeneration st && _); [|by intros [= <-]].
    destruct (trackFallbackParamAccessed st "pathname" t) as [[e|] t'']; [done|].
    by intros [= <-].
  - intros Hclosed. destruct store as [st|]; [|done].
    destruct (isStaticGeneration st) eqn:Hstatic; [|done].
    destruct (fallbackRouteParams st) as [params|] eqn:Hparams; [|done].
    cbn. case_bool_decide as Hsize; [|done].
    exfalso. apply Hclosed. exists st, params. repeat split; [done..|].
    intros ->. rewrite map_size_empty in Hsize. lia.
  - intros st params -> Hstatic Hparams Hne. rewrite Hstatic, Hparams. cbn.
    rewrite bool_decide_eq_true_2.
    + by destruct (trackFallbackParamAccessed st "pathname" t) as [[e|] t''].
    + apply map_size_non_empty_iff in Hne. lia.
Qed.

End TrackedContext.

(* ===================================================================== *)
(** * The sample request, run *)
(* ===================================================================== *)

Section SampleRuns.
#[local] Existing Instances Sample.domain Sample.collaborators.

(** C10, the claim as stated fails: during a prerender with an outstanding
    fallback parameter, with a tracker that records the access and refuses
    it, the read throws instead of returning the pathname. *)
Lemma tracked_pathname_read_throws :
  pathname
    (createTrackedMetadataContext Sample.refusing_tracker "/blog/[slug]"
       {| ro_trailingSlash := false; ro_nextConfigOutput := None |}
       (Some Sample.prerender_store)) []
  = (inr (NewError "access to pathname needs a fallback param"), ["pathname"]).
Proof. vm_compute. reflexivity. Qed.

(** C4, the claim as stated fails: [getMetadataReady] is called while
    [currentMetadataReady] is still [null], [MetadataTree] is called later
    in the same job, and the promise of the first call follows the readiness
    state and is fulfilled. *)
Lemma getMetadataReady_follows_later_render :
  currentMetadataReady (@initial_state Sample.domain) = None ∧
  ∃ s,
    run_host Sample.resolver_ok (Sample.props false None)
      [CallGetMetadataReady; RenderMetadataTree; MicrotaskCheckpoint 10] initial_state
    = ([Returned (VPromise 1); Returned (VPromise 2)], s) ∧
    queue s = [] ∧
    promise_state s 1 = Some (Fulfilled VUndefined).
Proof. split; [reflexivity|]. eexists. vm_compute. repeat split. Qed.

Lemma getMetadataReady_before_render_witness :
  (RenderMetadataTree ∉ [CallGetMetadataReady]) ∧
  length [CallGetMetadataReady] ≤ 1 ∧
  ∃ promises s,
    run_host Sample.resolver_ok (Sample.props false None)
      ([CallGetMetadataReady] ++ [MicrotaskCheckpoint 1]) initial_state
    = ((λ p, Returned (VPromise p)) <$> promises, s) ∧
    length promises = ready_calls [CallGetMetadataReady] ∧
    queue s = [] ∧
    Forall (λ p, promise_state s p = Some (Rejected ordering_violation)) promises.
Proof.
  assert (RenderMetadataTree ∉ [CallGetMetadataReady]) as Hnotin.
  { intros Hin. apply elem_of_cons in Hin as [Heq|Hin]; [discriminate Heq|].
    by apply elem_of_nil in Hin. }
  split; [exact Hnotin|]. split; [simpl; lia|].
  exact (getMetadataReady_before_render Sample.resolver_ok (Sample.props false None)
           [CallGetMetadataReady] 1 Hnotin ltac:(simpl; lia)).
Defined.

Lemma metadataReady_status_transitions_witness :
  5 ≤ 5 ∧
  ∃ metadataReady,
    currentMetadataReady
      (render_pass Sample.resolver_not_found 5 (Sample.props false None)).2
      = Some metadataReady ∧
    status_history metadataReady
      (render_pass Sample.resolver_not_found 5 (Sample.props false None)).2
      = ["pending"; "rejected"].
Proof.
  split; [lia|].
  destruct (metadataReady_status_transitions Sample.resolver_not_found
              (Sample.props false None) 5 ltac:(lia))
    as (metadataReady & _ & _ & _ & _ & _ & _ & Hcurrent & status & value
        & Hhistory & _ & _ & Hcase).
  exists metadataReady. split; [exact Hcurrent|].
  rewrite Hhistory. vm_compute in Hcase. destruct Hcase as (-> & _). reflexivity.
Defined.

(** C6, the claim as stated fails: when the promise of the resolver pass
    rejects, the promise of [MetadataTree] is rejected with that reason. *)
Lemma MetadataTree_rejects_with_rejecting_resolver :
  ∃ s,
    render_pass Sample.resolver_rejects 5 (Sample.props false None)
      = ([Returned (VPromise 0)], s) ∧
    queue s = [] ∧
    promise_state s 0 = Some (Rejected (Thrown "ECONNRESET")).
Proof. eexists. vm_compute. repeat split. Qed.

Lemma MetadataTree_settles_witness :
  5 ≤ 5 ∧
  ∃ result metadataReady s,
    render_pass Sample.resolver_rejects 5 (Sample.props false None)
      = ([Returned (VPromise result)], s) ∧
    queue s = [] ∧
    currentMetadataReady s = Some metadataReady ∧
    promise_state s result = Some (Rejected (Thrown "ECONNRESET")) ∧
    promise_state s metadataReady = Some (Rejected (Thrown "ECONNRESET")).
Proof.
  split; [lia|].
  destruct (MetadataTree_settles Sample.resolver_rejects (Sample.props false None) 5
              ltac:(lia))
    as (result & metadataReady & s & Hrun & Hqueue & Hcurrent & Hcase).
  vm_compute in Hcase. destruct Hcase as [Hresult Hready].
  exists result, metadataReady, s.
  split; [exact Hrun|]. split; [exact Hqueue|]. split; [exact Hcurrent|].
  split; [exact Hresult|exact Hready].
Defined.

Lemma MetadataTree_output_elements_witness :
  5 ≤ 5 ∧
  Sample.resolver_ok 0 (first_pass (Sample.props true None))
    = Resolves (None, Sample.metadata "a page", "width=device-width") ∧
  ∃ result s output,
    render_pass Sample.resolver_ok 5 (Sample.props true None)
      = ([Returned (VPromise result)], s) ∧
    promise_state s result = Some (Fulfilled (VNode output)) ∧
    length (rendered_elements output) = 2 + 1 ∧
    rendered_elements output !! 0
      = Some {| el_type := "meta"; el_key := Some (KeyIndex 0);
                el_props := [("name", "viewport");
                             ("content", "width=device-width")] |} ∧
    rendered_elements output !! 1
      = Some {| el_type := "meta"; el_key := Some (KeyIndex 1);
                el_props := [("name", "description"); ("content", "a page")] |} ∧
    rendered_elements output !! 2
      = Some {| el_type := "meta"; el_key := None;
                el_props := [("name", "next-size-adjust")] |}.
Proof.
  split; [lia|]. split; [reflexivity|].
  destruct (MetadataTree_output_elements Sample.resolver_ok (Sample.props true None) 5
              (Sample.metadata "a page") "width=device-width" ltac:(lia) eq_refl)
    as (result & s & output & Hrun & Hresult & Hlength & Hclones & Htag).
  exists result, s, output. split; [exact Hrun|]. split; [exact Hresult|].
  split; [exact Hlength|].
  split; [exact (Hclones 0 (Sample.meta "viewport" "width=device-width") eq_refl)|].
  split; [exact (Hclones 1 (Sample.meta "description" "a page") eq_refl)|].
  exact Htag.
Defined.

End SampleRuns.

(* ===================================================================== *)
(** * More on the resolution orchestrator *)
(* ===================================================================== *)

Section Passes.
Context `{C : Collaborators} (resolveMetadata : nat → ResolveParams → ResolverAnswer).

(** X1. [getResolvedMetadata] never makes more than two resolver passes,
    however long it is left to run. The first pass is always made; a second
    one is made only when no [errorType] was given and the first pass
    reported a not-found error, and it is the fallback pass. What the
    fallback pass reports never leads to a third. *)
Theorem getResolvedMetadata_at_most_two_passes props fuel :
  (resolution resolveMetadata fuel props).2 = [first_pass props]
  ∨ ((resolution resolveMetadata fuel props).2 = [first_pass props; fallback_pass props] ∧
     errorType props = None ∧
     ∃ err metadata viewport,
       resolveMetadata 0 (first_pass props) = Resolves (Some err, metadata, viewport) ∧
       isNotFoundError err = true).
Proof.
  unfold resolution, first_pass, fallback_pass, pass_params.
  destruct fuel as [|[|fuel]].
  1,2: run_cases resolveMetadata; (by left) || (right; eauto 10).
  rewrite (drain_enough _ 2 (S (S fuel))); [ | | lia ].
  all: run_cases resolveMetadata; try reflexivity; (by left) || (right; eauto 10).
Qed.

(** X2. When the promise of the first pass rejects, the [await] throws:
    the promise of [getResolvedMetadata] rejects with the same reason after
    that one pass. No fallback pass is made, whatever the reason is, a
    not-found error included. *)
Theorem getResolvedMetadata_first_pass_rejects props fuel reason :
  2 ≤ fuel →
  resolveMetadata 0 (first_pass props) = Rejects reason →
  resolution resolveMetadata fuel props
  = (Some (Rejected (Thrown reason)), [first_pass props]).
Proof.
  intros Hfuel Hfirst. rewrite resolution_spec by done.
  unfold resolution_by_cases. by rewrite Hfirst.
Qed.

(** X3. Given two microtasks, the promise of [getResolvedMetadata] has
    settled. It is fulfilled with a pair of an error and elements, or it is
    rejected with the reason a pass it made rejected with; nothing else
    makes it reject. *)
Theorem getResolvedMetadata_settles props fuel :
  2 ≤ fuel →
  (∃ error elements,
     (resolution resolveMetadata fuel props).1
       = Some (Fulfilled (VOutcome (error, elements)))) ∨
  (∃ reason calls params,
     (resolution resolveMetadata fuel props).1 = Some (Rejected (Thrown reason)) ∧
     params ∈ (resolution resolveMetadata fuel props).2 ∧
     resolveMetadata calls params = Rejects reason).
Proof.
  intros Hfuel. rewrite resolution_spec by done. unfold resolution_by_cases.
  destruct (resolveMetadata 0 _) as [[[[err|] m] v]|reason] eqn:Hfirst.
  - destruct (negb _ && isNotFoundError err).
    + destruct (resolveMetadata 1 _) as [[[fe fm] fv]|reason] eqn:Hfallback.
      * left. eauto.
      * right. exists reason, 1, (fallback_pass props).
        split; [done|]. split; [|done]. cbn. set_solver.
    + left. eauto.
  - left. eauto.
  - right. exists reason, 0, (first_pass props).
    split; [done|]. split; [|done]. cbn. set_solver.
Qed.

End Passes.

(* ===================================================================== *)
(** * More on the head unit *)
(* ===================================================================== *)

Section HeadAndOutlet.
Context `{C : Collaborators} (resolveMetadata : nat → ResolveParams → ResolverAnswer).

(** X5. [MetadataTree] starts the resolution at once: when the call
    returns, before any microtask has run, the first resolver pass has been
    made, and the promise handed to the renderer is pending. *)
Theorem MetadataTree_starts_resolution props :
  let s0 := (render_MetadataTree resolveMetadata props initial_state).2 in
  ∃ head,
    (render_MetadataTree resolveMetadata props initial_state).1
      = Returned (VPromise head) ∧
    promise_state s0 head = Some Pending ∧
    resolver_calls s0 = [first_pass props] ∧
    microtasks_started s0 = 0.
Proof.
  exists 0. unfold first_pass, pass_params.
  run_cases resolveMetadata; repeat split; reflexivity.
Qed.

(** X9. [MetadataTree] and [getMetadataReady] called in the same job, in
    either order: the deferred check of [getMetadataReady] runs after the
    job and finds the readiness state. Once the queue has drained the head
    is fulfilled with the elements of the outcome, and the promise of
    [getMetadataReady] is rejected with the error of the outcome, or
    fulfilled with [undefined] if it has none. *)
Theorem getMetadataReady_same_job props fuel error elements :
  8 ≤ fuel →
  (resolution resolveMetadata fuel props).1
    = Some (Fulfilled (VOutcome (error, elements))) →
  let settled := match error with
                 | Some err => Rejected (Thrown err)
                 | None => Fulfilled VUndefined
                 end in
  let output :=
    Fulfilled (VNode (MetadataTree_output (appUsingSizeAdjustment props) elements)) in
  (∃ head outlet s,
     run_host resolveMetadata props
       [RenderMetadataTree; CallGetMetadataReady; MicrotaskCheckpoint fuel]
       initial_state
     = ([Returned (VPromise head); Returned (VPromise outlet)], s) ∧
     queue s = [] ∧
     promise_state s head = Some output ∧
     promise_state s outlet = Some settled) ∧
  (∃ outlet head s,
     run_host resolveMetadata props
       [CallGetMetadataReady; RenderMetadataTree; MicrotaskCheckpoint fuel]
       initial_state
     = ([Returned (VPromise outlet); Returned (VPromise head)], s) ∧
     queue s = [] ∧
     promise_state s head = Some output ∧
     promise_state s outlet = Some settled).
Proof.
  intros Hfuel Houtcome settled output. subst settled output.
  rewrite resolution_spec in Houtcome by lia.
  unfold resolution_by_cases, first_pass, fallback_pass, pass_params in Houtcome.
  split; revert Houtcome.
  - run_script resolveMetadata; intros [= <- <-] || intros [=];
      eexists _, _, _; repeat split; reflexivity.
  - run_script resolveMetadata; intros [= <- <-] || intros [=];
      eexists _, _, _; repeat split; reflexivity.
Qed.

(** X11. A promise [getMetadataReady] returned, and whose deferred check
    ran, before [MetadataTree] was called stays rejected with the ordering
    violation: the later render completes and publishes its readiness
    state, but does not revive that promise. *)
Theorem getMetadataReady_early_call_stays_rejected props fuel fuel' error elements :
  1 ≤ fuel → 5 ≤ fuel' →
  (resolution resolveMetadata fuel' props).1
    = Some (Fulfilled (VOutcome (error, elements))) →
  ∃ outlet head metadataReady s,
    run_host resolveMetadata props
      [CallGetMetadataReady; MicrotaskCheckpoint fuel;
       RenderMetadataTree; MicrotaskCheckpoint fuel'] initial_state
    = ([Returned (VPromise outlet); Returned (VPromise head)], s) ∧
    queue s = [] ∧
    promise_state s outlet = Some (Rejected ordering_violation) ∧
    promise_state s head
      = Some (Fulfilled
                (VNode (MetadataTree_output (appUsingSizeAdjustment props) elements))) ∧
    currentMetadataReady s = Some metadataReady ∧
    promise_state s metadataReady
      = Some match error with
             | Some err => Rejected (Thrown err)
             | None => Fulfilled VUndefined
             end.
Proof.
  intros Hfuel Hfuel'. rewrite resolution_spec by lia.
  unfold resolution_by_cases, first_pass, fallback_pass, pass_params.
  run_script resolveMetadata; intros [= <- <-] || intros [=];
    eexists _, _, _, _; repeat split; reflexivity.
Qed.

(** X8. [MetadataTree] keeps nothing from one call to the next: a second
    call resolves the metadata again and publishes a new readiness state in
    place of the first. Here the first call resolves cleanly and the second
    reports an error: each head renders the elements of its own resolution,
    and [getMetadataReady], called afterwards, reports the error of the
    second. *)
Theorem MetadataTree_rerender props fuel fuel' fuel''
    metadata viewport err metadata' viewport' :
  5 ≤ fuel → 5 ≤ fuel' → 3 ≤ fuel'' →
  resolveMetadata 0 (first_pass props) = Resolves (None, metadata, viewport) →
  resolveMetadata 1 (first_pass props) = Resolves (Some err, metadata', viewport') →
  is_Some (errorType props) ∨ isNotFoundError err = false →
  ∃ head head' outlet s,
    run_host resolveMetadata props
      [RenderMetadataTree; MicrotaskCheckpoint fuel;
       RenderMetadataTree; MicrotaskCheckpoint fuel';
       CallGetMetadataReady; MicrotaskCheckpoint fuel''] initial_state
    = ([Returned (VPromise head); Returned (VPromise head'); Returned (VPromise outlet)],
       s) ∧
    queue s = [] ∧
    resolver_calls s = [first_pass props; first_pass props] ∧
    promise_state s head
      = Some (Fulfilled
                (VNode (MetadataTree_output (appUsingSizeAdjustment props)
                          (createMetadataElements metadata viewport)))) ∧
    promise_state s head'
      = Some (Fulfilled (VNode (MetadataTree_output (appUsingSizeAdjustment props) []))) ∧
    promise_state s outlet = Some (Rejected (Thrown err)).
Proof.
  intros Hfuel Hfuel' Hfuel'' Hfirst Hsecond Hgate.
  unfold first_pass, pass_params in *.
  assert (negb (bool_decide (is_Some (errorType props))) && isNotFoundError err = false)
    as Hno.
  { destruct Hgate as [Htype|Hnf].
    - by rewrite bool_decide_eq_true_2.
    - by rewrite Hnf, andb_false_r. }
  revert Hfirst Hsecond Hno.
  destruct (errorType props) as [[|]|] eqn:Htype; cbn; intros Hfirst Hsecond Hno;
    run_script resolveMetadata;
    eexists _, _, _, _; repeat split; reflexivity.
Qed.

End HeadAndOutlet.

Section Ordering.
Context `{C : Collaborators} (resolveMetadata : nat → ResolveParams → ResolverAnswer).

(** X6. The readiness handler was registered on the resolution before the
    [await] of [MetadataTree] was: at every point of the run, if the promise
    of [MetadataTree] is no longer pending, then the readiness state has
    settled and its [status] is no longer ['pending']. *)
Theorem metadataReady_settles_before_head props fuel :
  let s := (render_pass resolveMetadata fuel props).2 in
  ∃ head metadataReady,
    (render_pass resolveMetadata fuel props).1 = [Returned (VPromise head)] ∧
    currentMetadataReady s = Some metadataReady ∧
    (promise_state s head = Some Pending ∨
     ∃ status st,
       p_status <$> heap s !! metadataReady = Some (Some status) ∧
       status ≠ "pending" ∧
       promise_state s metadataReady = Some st ∧ st ≠ Pending).
Proof.
  cbn zeta. exists 0, 3.
  destruct (decide (5 ≤ fuel)) as [Hfuel|Hfuel].
  - rewrite render_pass_enough by done. rewrite render_pass_unfold.
    run_cases resolveMetadata; (split; [reflexivity|]); (split; [reflexivity|]);
      right; eexists _, _; repeat split; done.
  - rewrite render_pass_unfold.
    destruct fuel as [|[|[|[|[|fuel]]]]]; [..|lia].
    all: run_cases resolveMetadata; (split; [reflexivity|]); (split; [reflexivity|]);
      first [ by left | right; eexists _, _; repeat split; done ].
Qed.

End Ordering.

Section OutputKeys.

(** The keys of the clones are the indices, in order. *)
Lemma clone_keys (elements : list ReactElement) n :
  el_key <$> imap (λ index el, cloneElement_with_key el (n + index)) elements
  = (λ index, Some (KeyIndex index)) <$> seq n (length elements).
Proof.
  revert n. induction elements as [|el elements IH]; intros n; [done|].
  cbn. rewrite Nat.add_0_r. f_equal. rewrite <- IH.
  f_equal. apply imap_ext. intros index el' _. cbn. f_equal. lia.
Qed.

(** X7. Whatever keys the builders gave their elements, the elements
    [MetadataTree] renders have pairwise distinct keys (the clones carry
    their indices, the size-adjust tag alone has none), and cloning leaves
    the type and the props of each element as they were, in the same
    order. *)
Theorem MetadataTree_output_keys sizeAdjust (elements : list ReactElement) :
  let output := rendered_elements (MetadataTree_output sizeAdjust elements) in
  NoDup (el_key <$> output) ∧
  (λ el, (el_type el, el_props el)) <$> output
  = ((λ el, (el_type el, el_props el)) <$> elements)
    ++ (if sizeAdjust then [("meta", [("name", "next-size-adjust")])] else []).
Proof.
  cbn zeta. rewrite rendered_elements_output, !fmap_app.
  pose proof (clone_keys elements 0) as Hkeys. cbn [Nat.add] in Hkeys. split.
  - apply NoDup_app. rewrite Hkeys. split; [|split].
    + apply NoDup_fmap_2; [|apply NoDup_seq]. by intros i j [= ->].
    + intros key Hkey Hkey'.
      apply list_elem_of_fmap in Hkey as (index & -> & _).
      destruct sizeAdjust; cbn in Hkey'.
      * apply elem_of_cons in Hkey' as [[=]|Hkey']. by apply elem_of_nil in Hkey'.
      * by apply elem_of_nil in Hkey'.
    + destruct sizeAdjust; cbn; [apply NoDup_singleton|apply NoDup_nil_2].
  - f_equal; [|by destruct sizeAdjust].
    rewrite fmap_imap. etrans; [|apply imap_const]. by apply imap_ext.
Qed.

End OutputKeys.

(* ===================================================================== *)
(** * More on the fault outlet *)
(* ===================================================================== *)

Section Rendered.
Context `{C : Collaborators} (resolveMetadata : nat → ResolveParams → ResolverAnswer).

Lemma rendered_promise_alloc base st (s s' : State) l p :
  heap s' = heap s ++ l → outlet_promise base st s p → outlet_promise base st s' p.
Proof.
  intros Hheap (Hp & pr & Hlook & Hpr). split; [done|]. exists pr. split; [|done].
  rewrite Hheap. apply lookup_app_l_Some, Hlook.
Qed.

(** A call of [getMetadataReady] keeps the invariant and adds the
    promise it returns. *)
Lemma rendered_call base metadataReady st (s : State) ps :
  rendered base metadataReady st s ps →
  rendered base metadataReady st (host_call resolveMetadata getMetadataReady s).2
    (ps ++ [S (length (heap s))]).
Proof.
  intros (Hcur & Hlen & Hframe & Hqueue & Hps). rewrite getMetadataReady_call.
  set (s' := (_, _).2). cbn in s'.
  assert (outlet_promise base st s' (S (length (heap s)))) as Hnew.
  { split; [lia|]. exists (new_promise Pending). split; [|by split; [|left]].
    subst s'. cbn. rewrite lookup_app_r by lia.
    by replace (S (length (heap s)) - length (heap s)) with 1 by lia. }
  assert (∀ p, outlet_promise base st s p → outlet_promise base st s' p) as Hmono.
  { intros p. by apply (rendered_promise_alloc base st) with
      (l := [new_promise (Fulfilled VUndefined); new_promise Pending]). }
  split; [done|]. split; [subst s'; cbn; rewrite length_app; lia|]. split.
  { intros p Hp. subst s'. cbn. rewrite lookup_app_l by lia. by apply Hframe. }
  split.
  - subst s'. cbn. apply Forall_app. split.
    + eapply Forall_impl; [exact Hqueue|]. intros j [? ?]. split; [done|]. by apply Hmono.
    + constructor; [|constructor]. split; [by left|done].
  - apply Forall_app. split.
    + eapply Forall_impl; [exact Hps|]. intros p [Hp Hpending]. split; [by apply Hmono|].
      intros Hstate. destruct Hpending as (j & Hj & Htarget).
      { destruct Hp as (_ & pr & Hlook & _). revert Hstate. unfold promise_state.
        subst s'. cbn. by rewrite (lookup_app_l_Some _ _ _ _ Hlook), Hlook. }
      exists j. split; [|done]. subst s'. cbn. apply elem_of_app. by left.
    + constructor; [|constructor]. split; [done|]. intros _.
      exists {| job_cmd := ready_check; job_target := S (length (heap s)) |}.
      split; [|done]. subst s'. cbn. apply elem_of_app. right. by left.
Qed.

Lemma rendered_step base metadataReady st (s s' : State) ps j q extra :
  rendered base metadataReady st s ps → queue s = j :: q →
  currentMetadataReady s' = Some metadataReady →
  queue s' = q ++ extra →
  length (heap s') = length (heap s) →
  (∀ p, p < length base → heap s' !! p = heap s !! p) →
  (∀ p, outlet_promise base st s p → outlet_promise base st s' p) →
  Forall (λ j', outlet_stage metadataReady st (job_cmd j') ∧
                job_target j' = job_target j) extra →
  (∀ p, promise_state s' p = Some Pending →
        promise_state s p = Some Pending ∧ (p = job_target j → extra ≠ [])) →
  rendered base metadataReady st s' ps.
Proof.
  intros (Hcur & Hlen & Hframe & Hqueue & Hps) Hq Hcur' Hq' Hlen' Hframe' Hmono Hextra
    Hpending.
  rewrite Hq in Hqueue. apply Forall_cons in Hqueue as [[_ Htarget] Hrest].
  split; [done|]. split; [lia|]. split.
  { intros p Hp. rewrite Hframe' by done. by apply Hframe. }
  split.
  - rewrite Hq'. apply Forall_app. split.
    + eapply Forall_impl; [exact Hrest|]. intros j' [? ?]. split; [done|]. by apply Hmono.
    + eapply Forall_impl; [exact Hextra|]. intros j' [? ->]. split; [done|]. by apply Hmono.
  - eapply Forall_impl; [exact Hps|]. intros p [Hp Hjob]. split; [by apply Hmono|].
    intros Hstate. destruct (Hpending p Hstate) as [Hstate' Hne].
    destruct (Hjob Hstate') as (j' & Hj' & Hp').
    rewrite Hq in Hj'. apply elem_of_cons in Hj' as [->|Hj'].
    + destruct extra as [|j'' extra']; [by destruct (Hne (eq_sym Hp'))|].
      apply Forall_cons in Hextra as [[_ Hj''] _].
      exists j''. split; [|congruence]. rewrite Hq'. apply elem_of_app. right. by left.
    + exists j'. split; [|done]. rewrite Hq'. apply elem_of_app. by left.
Qed.

(** One microtask of the outlet keeps the invariant and takes one unit
    of the work left. *)
Lemma rendered_job base metadataReady st (s : State) ps j q :
  p_state <$> base !! metadataReady = Some st →
  st = Fulfilled VUndefined ∨ (∃ e, st = Rejected e) →
  rendered base metadataReady st s ps → queue s = j :: q →
  rendered base metadataReady st (run_job resolveMetadata j (with_queue q s)) ps ∧
  S (outlet_work (queue (run_job resolveMetadata j (with_queue q s)))) = outlet_work (queue s).
Proof.
  intros Hready Hst Hinv Hq. pose proof Hinv as (Hcur & Hlen & Hframe & Hqueue & _).
  rewrite Hq in Hqueue. apply Forall_cons in Hqueue as [[Hstage Htarget] _].
  assert (metadataReady < length base) as Hlt.
  { destruct (base !! metadataReady) eqn:Hlook; [|done]. by eapply lookup_lt_Some. }
  assert (∃ pr, heap s !! metadataReady = Some pr ∧ p_state pr = st) as (mr & Hmr & Hmrst).
  { rewrite Hframe by done. destruct (base !! metadataReady) as [pr|] eqn:Hlook; [|done].
    exists pr. split; [exact Hlook|]. by injection Hready. }
  unfold run_job, outlet_work. rewrite Hq.
  destruct Hstage as [Hcmd|[Hcmd|Hcmd]]; rewrite Hcmd.
  - unfold ready_check. rewrite exec_ReadCurrentMetadataReady. cbn.
    rewrite Hcur, exec_Return. cbn. split.
    + eapply rendered_step with
        (extra := [ {| job_cmd := Await metadataReady Return;
                       job_target := job_target j |} ]);
        [exact Hinv|exact Hq|try done..].
      constructor; [|constructor]. split; [|done]. right. by left.
    + unfold outlet_weight at 2. rewrite Hcmd. cbn.
      rewrite fmap_app, sum_list_with_app. cbn. unfold ready_check. lia.
  - rewrite exec_Await. cbn. rewrite Hmr, Hmrst.
    assert (outlet_weight j = 2) as Hw by (unfold outlet_weight; by rewrite Hcmd).
    destruct Hst as [->|[e ->]]; cbn; (split;
      [ eapply rendered_step with (extra := [_]);
          [exact Hinv|exact Hq|try done..];
          constructor; [|constructor]; split; [|done]; right; by right
      | rewrite fmap_app, sum_list_with_app, Hw; cbn; lia ]).
  - assert (outlet_weight j = 1) as Hw.
    { unfold outlet_weight. rewrite Hcmd. by destruct Hst as [->|[e ->]]. }
    destruct Htarget as (Hbase & pr & Hlook & Hreactions & Hstate).
    assert (rendered base metadataReady st
              (settle (job_target j) st (record_event MicrotaskStarted (with_queue q s)))
              ps ∧
            queue (settle (job_target j) st
                     (record_event MicrotaskStarted (with_queue q s))) = q) as [Hinv' Hq'].
    { cbn. rewrite Hlook. destruct Hstate as [Hstate|Hstate]; rewrite Hstate.
      - rewrite Hreactions. cbn. rewrite app_nil_r. split; [|done].
        eapply rendered_step with (extra := []);
          [exact Hinv|exact Hq|done|by rewrite app_nil_r|..].
        + cbn. by rewrite length_insert.
        + intros p Hp. cbn. rewrite list_lookup_insert_ne by lia. done.
        + intros p (Hp & pr' & Hlook' & Hpr'). split; [done|]. cbn.
          destruct (decide (p = job_target j)) as [->|Hne].
          * rewrite list_lookup_insert_eq by (by eapply lookup_lt_Some).
            eexists. split; [done|]. cbn. split; [done|by right].
          * rewrite list_lookup_insert_ne by done. by exists pr'.
        + constructor.
        + intros p. unfold promise_state. cbn.
          destruct (decide (p = job_target j)) as [->|Hne].
          * rewrite list_lookup_insert_eq by (by eapply lookup_lt_Some). cbn.
            intros [= Hp]. destruct Hst as [->|[e ->]]; done.
          * by rewrite list_lookup_insert_ne by done.
      - assert (match st with Pending => False | _ => True end) as Hsettled
          by (by destruct Hst as [->|[e ->]]).
        destruct st; [done| |].
        all: split; [|done].
        all: eapply rendered_step with (extra := []);
          [exact Hinv|exact Hq|done|by rewrite app_nil_r|done|done|done|constructor|].
        all: intros p; unfold promise_state; cbn; intros Hp; split; [done|].
        all: intros ->; rewrite Hlook in Hp; cbn in Hp; by rewrite Hstate in Hp. }
    destruct Hst as [->|[e ->]]; cbn [outlet_reaction];
      rewrite ?exec_Return, ?exec_Throw; cbn [complete resolve_promise];
      (split; [exact Hinv'|]); rewrite Hq'; cbn; lia.
Qed.

Lemma rendered_drain base metadataReady st fuel (s : State) ps :
  p_state <$> base !! metadataReady = Some st →
  st = Fulfilled VUndefined ∨ (∃ e, st = Rejected e) →
  rendered base metadataReady st s ps →
  rendered base metadataReady st (drain resolveMetadata fuel s) ps ∧
  outlet_work (queue (drain resolveMetadata fuel s)) = outlet_work (queue s) - fuel.
Proof.
  intros Hready Hst. revert s. induction fuel as [|fuel IH]; intros s Hinv.
  - rewrite drain_0. split; [done|lia].
  - rewrite drain_S. destruct (queue s) as [|j q] eqn:Hq.
    + split; [done|]. by rewrite Hq.
    + destruct (rendered_job base metadataReady st s ps j q Hready Hst Hinv Hq) as [Hinv' Hwork].
      destruct (IH _ Hinv') as [? Hwork']. split; [done|].
      rewrite Hwork'. rewrite Hq in Hwork. lia.
Qed.

Lemma outlet_work_positive j q : 0 < outlet_work (j :: q).
Proof. unfold outlet_work, outlet_weight. cbn. destruct (job_cmd j); lia. Qed.

Lemma rendered_settled base metadataReady st (s : State) ps :
  st ≠ Pending →
  rendered base metadataReady st s ps → queue s = [] →
  Forall (λ p, promise_state s p = Some st) ps.
Proof.
  intros Hst (_ & _ & _ & _ & Hps) Hq. eapply Forall_impl; [exact Hps|].
  intros p [(_ & pr & Hlook & _ & [Hstate|Hstate]) Hjob]; unfold promise_state in *;
    rewrite Hlook in *; cbn in *; rewrite Hstate in *; [|done].
  destruct Hjob as (j & Hj & _); [done|]. rewrite Hq in Hj. by apply elem_of_nil in Hj.
Qed.

Lemma rendered_run_host base metadataReady st props script fuel (s : State) ps :
  p_state <$> base !! metadataReady = Some st →
  st = Fulfilled VUndefined ∨ (∃ e, st = Rejected e) →
  rendered base metadataReady st s ps →
  RenderMetadataTree ∉ script →
  outlet_work (queue s) + 3 * length script ≤ fuel →
  ∃ ps',
    length ps' = ready_calls script ∧
    (run_host resolveMetadata props (script ++ [MicrotaskCheckpoint fuel]) s).1
      = (λ p, Returned (VPromise p)) <$> ps' ∧
    rendered base metadataReady st
      (run_host resolveMetadata props (script ++ [MicrotaskCheckpoint fuel]) s).2
      (ps ++ ps') ∧
    queue (run_host resolveMetadata props (script ++ [MicrotaskCheckpoint fuel]) s).2 = [].
Proof.
  intros Hready Hst. revert s ps.
  induction script as [|action script IH]; intros s ps Hinv Hnotin Hfuel.
  - exists []. cbn. rewrite app_nil_r.
    destruct (rendered_drain base metadataReady st fuel s ps Hready Hst Hinv) as [Hinv' Hwork].
    split; [done|]. split; [done|]. split; [done|].
    destruct (queue (drain resolveMetadata fuel s)) as [|j q]; [done|].
    pose proof (outlet_work_positive j q). cbn in Hfuel. lia.
  - apply not_elem_of_cons in Hnotin as [Hne Hnotin].
    destruct action as [| |fuel']; [done| |]; cbn [app run_host].
    + change (call_getMetadataReady resolveMetadata props s)
        with (host_call resolveMetadata getMetadataReady s).
      pose proof (rendered_call base metadataReady st s ps Hinv) as Hinv'.
      rewrite getMetadataReady_call in *. cbn [snd] in Hinv'.
      destruct (IH _ _ Hinv' Hnotin) as (ps' & Hlen & Hres & Hinv'' & Hq).
      { cbn [queue length]. unfold outlet_work in *.
        rewrite fmap_app, sum_list_with_app. cbn in *. lia. }
      destruct (run_host _ _ _ _) as [results s']. cbn in *.
      exists (S (length (heap s)) :: ps'). rewrite Hres.
      split; [cbn; by rewrite Hlen|]. split; [done|]. split; [|done].
      by rewrite <- app_assoc in Hinv''.
    + destruct (rendered_drain base metadataReady st fuel' s ps Hready Hst Hinv) as [Hinv' Hwork].
      apply (IH _ _ Hinv' Hnotin). cbn in Hfuel. lia.
Qed.

(** X10. Once the head has rendered and the queue has drained,
    [getMetadataReady] may be called any number of times, with checkpoints
    in between or not: three microtasks per call later, every promise it
    returned has settled as the readiness state, rejected with the error of
    the outcome or fulfilled with [undefined] if it has none. The head's
    promise is left as it was. *)
Theorem getMetadataReady_after_render_every_call props fuel script fuel' error elements :
  5 ≤ fuel →
  RenderMetadataTree ∉ script →
  3 * length script ≤ fuel' →
  (resolution resolveMetadata fuel props).1
    = Some (Fulfilled (VOutcome (error, elements))) →
  ∃ head promises s,
    run_host resolveMetadata props
      ([RenderMetadataTree; MicrotaskCheckpoint fuel] ++ script
         ++ [MicrotaskCheckpoint fuel']) initial_state
    = (Returned (VPromise head) :: ((λ p, Returned (VPromise p)) <$> promises), s) ∧
    length promises = ready_calls script ∧
    queue s = [] ∧
    promise_state s head
      = Some (Fulfilled
                (VNode (MetadataTree_output (appUsingSizeAdjustment props) elements))) ∧
    Forall (λ p, promise_state s p
                 = Some match error with
                        | Some err => Rejected (Thrown err)
                        | None => Fulfilled VUndefined
                        end) promises.
Proof.
  intros Hfuel Hnotin Hfuel' Houtcome.
  set (st := match error with
             | Some err => Rejected (Thrown err)
             | None => Fulfilled VUndefined
             end).
  assert (∃ s0,
    render_pass resolveMetadata fuel props = ([Returned (VPromise 0)], s0) ∧
    queue s0 = [] ∧ 0 < length (heap s0) ∧
    promise_state s0 0
      = Some (Fulfilled
                (VNode (MetadataTree_output (appUsingSizeAdjustment props) elements))) ∧
    currentMetadataReady s0 = Some 3 ∧
    promise_state s0 3 = Some st) as (s0 & Hrun & Hq & Hlen & Hhead & Hcur & Hready).
  { subst st. revert Houtcome. rewrite render_pass_enough, resolution_spec by lia.
    rewrite render_pass_unfold.
    unfold resolution_by_cases, first_pass, fallback_pass, pass_params.
    run_cases resolveMetadata; intros [= <- <-] || intros [=];
      eexists; repeat split; cbn; lia. }
  assert (st = Fulfilled VUndefined ∨ (∃ e, st = Rejected e)) as Hst
    by (subst st; destruct error; eauto).
  assert (rendered (heap s0) 3 st s0 []) as Hinv.
  { split; [done|]. split; [done|]. split; [done|]. rewrite Hq. by split. }
  destruct (rendered_run_host (heap s0) 3 st props script fuel' s0 [] Hready Hst Hinv Hnotin)
    as (promises & Hcount & Hresults & Hinv' & Hq').
  { rewrite Hq. cbn. lia. }
  unfold render_pass in Hrun. cbn [run_host app] in Hrun |- *.
  destruct (render_MetadataTree resolveMetadata props initial_state) as [c s1].
  injection Hrun as -> Hs0. rewrite Hs0.
  destruct (run_host _ _ _ _) as [results s]. cbn [fst snd] in *. subst results.
  exists 0, promises, s. split; [done|]. split; [done|]. split; [done|]. split.
  - destruct Hinv' as (_ & _ & Hframe & _). unfold promise_state in *.
    by rewrite Hframe.
  - apply (rendered_settled (heap s0) 3 st s ([] ++ promises)); [|done..].
    by destruct Hst as [->|[e ->]].
Qed.
End Rendered.

Section UnrenderedEvents.
Context `{C : Collaborators} (resolveMetadata : nat → ResolveParams → ResolverAnswer).

(** An outlet microtask in a request without a render only starts: it
    records no resolver call and assigns no status. *)
Lemma unrendered_job_events (s : State) ps j q :
  unrendered s ps → queue s = j :: q →
  events (run_job resolveMetadata j (with_queue q s)) = events s ++ [MicrotaskStarted].
Proof.
  intros (Hcur & Hqueue & _) Hq.
  rewrite Hq in Hqueue. apply Forall_cons in Hqueue as [[Hcmd Htarget] _].
  unfold run_job. rewrite Hcmd. unfold ready_check.
  rewrite exec_ReadCurrentMetadataReady. cbn. rewrite Hcur, exec_Throw. cbn.
  destruct Htarget as (pr & Hlook & Hreactions & [Hstate|Hstate]);
    by rewrite Hlook, Hstate.
Qed.

Lemma unrendered_drain_events fuel (s : State) ps :
  unrendered s ps →
  Forall (λ e, e = MicrotaskStarted) (events s) →
  Forall (λ e, e = MicrotaskStarted) (events (drain resolveMetadata fuel s)).
Proof.
  revert s. induction fuel as [|fuel IH]; intros s Hinv Hevents; [done|].
  rewrite drain_S. destruct (queue s) as [|j q] eqn:Hq; [done|].
  destruct (unrendered_job resolveMetadata s ps j q Hinv Hq) as [Hinv' _].
  apply (IH _ Hinv'). rewrite (unrendered_job_events s ps j q Hinv Hq).
  apply Forall_app. split; [done|]. by constructor.
Qed.

Lemma unrendered_script props script (s : State) ps :
  unrendered s ps →
  Forall (λ e, e = MicrotaskStarted) (events s) →
  RenderMetadataTree ∉ script →
  (∃ ps', unrendered (run_host resolveMetadata props script s).2 ps') ∧
  Forall (λ e, e = MicrotaskStarted)
    (events (run_host resolveMetadata props script s).2).
Proof.
  revert s ps. induction script as [|action script IH]; intros s ps Hinv Hevents Hnotin.
  - cbn. eauto.
  - apply not_elem_of_cons in Hnotin as [Hne Hnotin].
    destruct action as [| |fuel]; [done| |]; cbn [run_host].
    + change (call_getMetadataReady resolveMetadata props s)
        with (host_call resolveMetadata getMetadataReady s).
      pose proof (unrendered_call resolveMetadata s ps Hinv) as Hinv'.
      rewrite getMetadataReady_call in *. cbn [snd] in Hinv'.
      destruct (IH _ _ Hinv' Hevents Hnotin) as [Hinv'' Hevents'].
      by destruct (run_host _ _ _ _) as [results s'].
    + destruct (unrendered_drain resolveMetadata fuel s ps Hinv) as [Hinv' _].
      apply (IH _ _ Hinv'); [|done]. by apply (unrendered_drain_events fuel s ps).
Qed.

(** X12. [getMetadataReady] on its own starts nothing: in a request
    where [MetadataTree] is not called, whatever the calls and checkpoints,
    no resolver pass is made, no [status] is assigned and no readiness state
    is published. *)
Theorem getMetadataReady_never_resolves props script :
  RenderMetadataTree ∉ script →
  let s := (run_host resolveMetadata props script initial_state).2 in
  currentMetadataReady s = None ∧
  resolver_calls s = [] ∧
  ∀ p, status_history p s = [].
Proof.
  intros Hnotin s.
  destruct (unrendered_script props script initial_state []
              (unrendered_initial) ltac:(constructor) Hnotin)
    as [[ps (Hcur & _)] Hevents].
  fold s in Hcur, Hevents. split; [done|].
  unfold resolver_calls, status_history.
  induction Hevents as [|e l -> _ IH]; [done|]. cbn. destruct IH as [-> IH].
  split; [done|]. intros p. apply IH.
Qed.

End UnrenderedEvents.

Section Instrumented.
Context `{C : Collaborators} (resolveMetadata : nat → ResolveParams → ResolverAnswer).

(** X14. What [getMetadataReady] returns is not the readiness state but a
    promise of its own that follows it: it settles the same way, but the
    [status] and [value] that [MetadataTree] writes are on the readiness
    state only, and the returned promise never has them. *)
Theorem getMetadataReady_promise_not_instrumented props fuel fuel' error elements :
  5 ≤ fuel → 3 ≤ fuel' →
  (resolution resolveMetadata fuel props).1
    = Some (Fulfilled (VOutcome (error, elements))) →
  ∃ head outlet metadataReady s,
    run_host resolveMetadata props
      [RenderMetadataTree; MicrotaskCheckpoint fuel;
       CallGetMetadataReady; MicrotaskCheckpoint fuel'] initial_state
    = ([Returned (VPromise head); Returned (VPromise outlet)], s) ∧
    currentMetadataReady s = Some metadataReady ∧
    outlet ≠ metadataReady ∧
    promise_state s outlet = promise_state s metadataReady ∧
    p_status <$> heap s !! metadataReady
      = Some (Some match error with
                   | Some _ => "rejected"
                   | None => "fulfilled"
                   end) ∧
    p_status <$> heap s !! outlet = Some None ∧
    p_value <$> heap s !! outlet = Some None.
Proof.
  intros Hfuel Hfuel'. rewrite resolution_spec by lia.
  unfold resolution_by_cases, first_pass, fallback_pass, pass_params.
  run_script resolveMetadata; intros [= <- <-] || intros [=];
    eexists _, _, _, _; repeat split; (reflexivity || done).
Qed.

End Instrumented.

(* ===================================================================== *)
(** * The plain and the tracked context *)
(* ===================================================================== *)

Section PlainContext.
Context `{D : Domain}.

(** X13. A tracked context is the plain context of
    [createMetadataContext] but for the [pathname] accessor: [trailingSlash]
    is the render option, [isStandaloneMode] holds exactly when the output
    option is ['standalone'], whatever the store. With the trap closed (no
    store, no static generation, or no outstanding fallback route
    parameter) the two contexts are the same. *)
Theorem createTrackedMetadataContext_closed_trap trackFallbackParamAccessed path
    renderOpts store :
  let plain := createMetadataContext path renderOpts in
  let tracked :=
    createTrackedMetadataContext trackFallbackParamAccessed path renderOpts store in
  trailingSlash tracked = ro_trailingSlash renderOpts ∧
  (isStandaloneMode tracked = true ↔ ro_nextConfigOutput renderOpts = Some "standalone") ∧
  ((¬ ∃ st params, store = Some st ∧ isStaticGeneration st = true ∧
                   fallbackRouteParams st = Some params ∧ params ≠ ∅) →
   tracked = plain).
Proof.
  cbn zeta. split; [reflexivity|]. split; [apply bool_decide_eq_true|].
  intros Hclosed. unfold createTrackedMetadataContext, createMetadataContext. cbn.
  destruct store as [st|]; [|reflexivity].
  destruct (isStaticGeneration st) eqn:Hstatic; [|reflexivity].
  destruct (fallbackRouteParams st) as [params|] eqn:Hparams; [|reflexivity].
  cbn. case_bool_decide as Hsize; [|reflexivity].
  exfalso. apply Hclosed. exists st, params. repeat split; [done..|].
  intros ->. rewrite map_size_empty in Hsize. lia.
Qed.

End PlainContext.

(* ===================================================================== *)
(** * Further sample runs *)
(* ===================================================================== *)

Section FurtherSampleRuns.
#[local] Existing Instances Sample.domain Sample.collaborators.

Lemma getResolvedMetadata_first_pass_rejects_witness :
  2 ≤ 2 ∧
  Sample.resolver_rejects 0 (first_pass (Sample.props false None))
    = Rejects "ECONNRESET" ∧
  resolution Sample.resolver_rejects 2 (Sample.props false None)
  = (Some (Rejected (Thrown "ECONNRESET")), [first_pass (Sample.props false None)]).
Proof.
  split; [lia|]. split; [reflexivity|].
  exact (getResolvedMetadata_first_pass_rejects Sample.resolver_rejects
           (Sample.props false None) 2 "ECONNRESET" ltac:(lia) eq_refl).
Defined.

Lemma getResolvedMetadata_settles_witness :
  2 ≤ 2 ∧
  ((∃ error elements,
      (resolution Sample.resolver_not_found 2 (Sample.props false None)).1
        = Some (Fulfilled (VOutcome (error, elements)))) ∨
   (∃ reason calls params,
      (resolution Sample.resolver_not_found 2 (Sample.props false None)).1
        = Some (Rejected (Thrown reason)) ∧
      params ∈ (resolution Sample.resolver_not_found 2 (Sample.props false None)).2 ∧
      Sample.resolver_not_found calls params = Rejects reason)).
Proof.
  split; [lia|].
  exact (getResolvedMetadata_settles Sample.resolver_not_found
           (Sample.props false None) 2 ltac:(lia)).
Defined.

Lemma render_pass_rejection_witness :
  5 ≤ 5 ∧
  (resolution Sample.resolver_rejects 5 (Sample.props false None)).1
    = Some (Rejected (Thrown "ECONNRESET")) ∧
  ∃ result metadataReady s,
    render_pass Sample.resolver_rejects 5 (Sample.props false None)
      = ([Returned (VPromise result)], s) ∧
    promise_state s result = Some (Rejected (Thrown "ECONNRESET")) ∧
    currentMetadataReady s = Some metadataReady ∧
    promise_state s metadataReady = Some (Rejected (Thrown "ECONNRESET")).
Proof.
  split; [lia|]. split; [vm_compute; reflexivity|].
  exact (render_pass_rejection Sample.resolver_rejects (Sample.props false None) 5
           (Thrown "ECONNRESET") ltac:(lia) eq_refl).
Defined.

Lemma getMetadataReady_same_job_witness :
  8 ≤ 8 ∧
  (resolution Sample.resolver_error 8 (Sample.props false None)).1
    = Some (Fulfilled (VOutcome (Some "boom", []))) ∧
  ∃ outlet head s,
    run_host Sample.resolver_error (Sample.props false None)
      [CallGetMetadataReady; RenderMetadataTree; MicrotaskCheckpoint 8] initial_state
    = ([Returned (VPromise outlet); Returned (VPromise head)], s) ∧
    queue s = [] ∧
    promise_state s head = Some (Fulfilled (VNode (MetadataTree_output false []))) ∧
    promise_state s outlet = Some (Rejected (Thrown "boom")).
Proof.
  split; [lia|]. split; [vm_compute; reflexivity|].
  exact (proj2 (getMetadataReady_same_job Sample.resolver_error
                  (Sample.props false None) 8 (Some "boom") [] ltac:(lia) eq_refl)).
Defined.

Lemma getMetadataReady_after_render_every_call_witness :
  5 ≤ 5 ∧
  (RenderMetadataTree ∉ [CallGetMetadataReady; CallGetMetadataReady]) ∧
  3 * length [CallGetMetadataReady; CallGetMetadataReady] ≤ 6 ∧
  (resolution Sample.resolver_error 5 (Sample.props false None)).1
    = Some (Fulfilled (VOutcome (Some "boom", []))) ∧
  ∃ head promises s,
    run_host Sample.resolver_error (Sample.props false None)
      ([RenderMetadataTree; MicrotaskCheckpoint 5]
         ++ [CallGetMetadataReady; CallGetMetadataReady]
         ++ [MicrotaskCheckpoint 6]) initial_state
    = (Returned (VPromise head) :: ((λ p, Returned (VPromise p)) <$> promises), s) ∧
    length promises = 2 ∧
    queue s = [] ∧
    promise_state s head = Some (Fulfilled (VNode (MetadataTree_output false []))) ∧
    Forall (λ p, promise_state s p = Some (Rejected (Thrown "boom"))) promises.
Proof.
  assert (RenderMetadataTree ∉ [CallGetMetadataReady; CallGetMetadataReady]) as Hnotin.
  { intros Hin. apply elem_of_cons in Hin as [Heq|Hin]; [discriminate Heq|].
    apply elem_of_cons in Hin as [Heq|Hin]; [discriminate Heq|].
    by apply elem_of_nil in Hin. }
  split; [lia|]. split; [exact Hnotin|]. split; [simpl; lia|].
  split; [vm_compute; reflexivity|].
  exact (getMetadataReady_after_render_every_call Sample.resolver_error
           (Sample.props false None) 5 [CallGetMetadataReady; CallGetMetadataReady] 6
           (Some "boom") [] ltac:(lia) Hnotin ltac:(simpl; lia) eq_refl).
Defined.

Lemma getMetadataReady_early_call_stays_rejected_witness :
  1 ≤ 1 ∧ 5 ≤ 5 ∧
  (resolution Sample.resolver_ok 5 (Sample.props false None)).1
    = Some (Fulfilled (VOutcome
              (None, [Sample.meta "viewport" "width=device-width";
                      Sample.meta "description" "a page"]))) ∧
  ∃ outlet head metadataReady s,
    run_host Sample.resolver_ok (Sample.props false None)
      [CallGetMetadataReady; MicrotaskCheckpoint 1;
       RenderMetadataTree; MicrotaskCheckpoint 5] initial_state
    = ([Returned (VPromise outlet); Returned (VPromise head)], s) ∧
    queue s = [] ∧
    promise_state s outlet = Some (Rejected ordering_violation) ∧
    promise_state s head
      = Some (Fulfilled
                (VNode (MetadataTree_output false
                          [Sample.meta "viewport" "width=device-width";
                           Sample.meta "description" "a page"]))) ∧
    currentMetadataReady s = Some metadataReady ∧
    promise_state s metadataReady = Some (Fulfilled VUndefined).
Proof.
  split; [lia|]. split; [lia|]. split; [vm_compute; reflexivity|].
  exact (getMetadataReady_early_call_stays_rejected Sample.resolver_ok
           (Sample.props false None) 1 5 None
           [Sample.meta "viewport" "width=device-width";
            Sample.meta "description" "a page"] ltac:(lia) ltac:(lia) eq_refl).
Defined.

Lemma MetadataTree_rerender_witness :
  5 ≤ 5 ∧ 5 ≤ 5 ∧ 3 ≤ 3 ∧
  Sample.resolver_then_error 0 (first_pass (Sample.props false None))
    = Resolves (None, Sample.metadata "a page", "width=device-width") ∧
  Sample.resolver_then_error 1 (first_pass (Sample.props false None))
    = Resolves (Some "boom", Sample.metadata "", "") ∧
  isNotFoundError ("boom" : Err) = false ∧
  ∃ head head' outlet s,
    run_host Sample.resolver_then_error (Sample.props false None)
      [RenderMetadataTree; MicrotaskCheckpoint 5;
       RenderMetadataTree; MicrotaskCheckpoint 5;
       CallGetMetadataReady; MicrotaskCheckpoint 3] initial_state
    = ([Returned (VPromise head); Returned (VPromise head'); Returned (VPromise outlet)],
       s) ∧
    queue s = [] ∧
    resolver_calls s
      = [first_pass (Sample.props false None); first_pass (Sample.props false None)] ∧
    promise_state s head
      = Some (Fulfilled
                (VNode (MetadataTree_output false
                          (createMetadataElements (Sample.metadata "a page")
                             "width=device-width")))) ∧
    promise_state s head' = Some (Fulfilled (VNode (MetadataTree_output false []))) ∧
    promise_state s outlet = Some (Rejected (Thrown "boom")).
Proof.
  split; [lia|]. split; [lia|]. split; [lia|].
  split; [reflexivity|]. split; [reflexivity|]. split; [reflexivity|].
  exact (MetadataTree_rerender Sample.resolver_then_error (Sample.props false None)
           5 5 3 (Sample.metadata "a page") "width=device-width" "boom"
           (Sample.metadata "") "" ltac:(lia) ltac:(lia) ltac:(lia)
           eq_refl eq_refl (or_intror eq_refl)).
Defined.

Lemma getMetadataReady_never_resolves_witness :
  (RenderMetadataTree ∉ [CallGetMetadataReady; MicrotaskCheckpoint 3]) ∧
  currentMetadataReady
    (run_host Sample.resolver_ok (Sample.props false None)
       [CallGetMetadataReady; MicrotaskCheckpoint 3] initial_state).2 = None ∧
  resolver_calls
    (run_host Sample.resolver_ok (Sample.props false None)
       [CallGetMetadataReady; MicrotaskCheckpoint 3] initial_state).2 = [] ∧
  ∀ p, status_history p
         (run_host Sample.resolver_ok (Sample.props false None)
            [CallGetMetadataReady; MicrotaskCheckpoint 3] initial_state).2 = [].
Proof.
  assert (RenderMetadataTree ∉ [CallGetMetadataReady; MicrotaskCheckpoint 3]) as Hnotin.
  { intros Hin. apply elem_of_cons in Hin as [Heq|Hin]; [discriminate Heq|].
    apply elem_of_cons in Hin as [Heq|Hin]; [discriminate Heq|].
    by apply elem_of_nil in Hin. }
  split; [exact Hnotin|].
  exact (getMetadataReady_never_resolves Sample.resolver_ok (Sample.props false None)
           [CallGetMetadataReady; MicrotaskCheckpoint 3] Hnotin).
Defined.

Lemma getMetadataReady_promise_not_instrumented_witness :
  5 ≤ 5 ∧ 3 ≤ 3 ∧
  (resolution Sample.resolver_error 5 (Sample.props false None)).1
    = Some (Fulfilled (VOutcome (Some "boom", []))) ∧
  ∃ head outlet metadataReady s,
    run_host Sample.resolver_error (Sample.props false None)
      [RenderMetadataTree; MicrotaskCheckpoint 5;
       CallGetMetadataReady; MicrotaskCheckpoint 3] initial_state
    = ([Returned (VPromise head); Returned (VPromise outlet)], s) ∧
    currentMetadataReady s = Some metadataReady ∧
    outlet ≠ metadataReady ∧
    promise_state s outlet = promise_state s metadataReady ∧
    p_status <$> heap s !! metadataReady = Some (Some "rejected") ∧
    p_status <$> heap s !! outlet = Some None ∧
    p_value <$> heap s !! outlet = Some None.
Proof.
  split; [lia|]. split; [lia|]. split; [vm_compute; reflexivity|].
  exact (getMetadataReady_promise_not_instrumented Sample.resolver_error
           (Sample.props false None) 5 3 (Some "boom") [] ltac:(lia) ltac:(lia) eq_refl).
Defined.

End FurtherSampleRuns.
